(** * Vocalysis: the audio feature-scoring pipeline of [vocalysis_analyzer.py]

    A shallow embedding of the analysis module and the properties its
    specification states about it.

    Modelling conventions.
    - Python floats (and NumPy scalars) are exact rationals [Q]: there is no
      rounding, no infinity and no NaN in the model.  Equality of scores is
      therefore [Qeq] ([==]) unless the code returns a literal.
    - A Python call either returns or raises; [result A] is that outcome.
      The exception type [exn] stands for instances of Python's [Exception]
      class, the ones a clause [except Exception] catches.
    - The external capabilities (pydub, librosa, whisper and the NumPy
      reductions that have no exact rational counterpart) are the fields of a
      record [Lib]; every call to pydub, librosa and whisper and every
      [print] is recorded in a trace, so that "stage X did not run" is a
      statement about the trace. *)

From Stdlib Require Import QArith Qabs Lqa Lia List Ascii String.
From stdpp Require Import base gmap strings.
Import ListNotations.

Local Open Scope Q_scope.

(** ** Outcomes of Python calls *)

Inductive exn_class :=
  | ZeroDivisionError
  | ValueError
  | IndexError
  | KeyError
  | TypeError
  | AttributeError
  | LibraryError.

Record exn := mkExn { exn_cls : exn_class; exn_str : string }.

Inductive result (A : Type) :=
  | Ok (a : A)
  | Raise (e : exn).
Arguments Ok {A} a.
Arguments Raise {A} e.

Definition rbind {A B} (r : result A) (k : A -> result B) : result B :=
  match r with
  | Ok a => k a
  | Raise e => Raise e
  end.

#[global] Instance result_ret : MRet result := @Ok.
#[global] Instance result_bind : MBind result := fun A B k r => rbind r k.

(** ** Numbers *)

Definition Qlt_bool (a b : Q) : bool := negb (Qle_bool b a).

(** Python's builtin [min(a, b)]: [b] when [b < a], else [a]. *)
Definition py_min (a b : Q) : Q := if Qlt_bool b a then b else a.

(** Python's builtin [max(a, b)]: [b] when [b > a], else [a]. *)
Definition py_max (a b : Q) : Q := if Qlt_bool a b then b else a.

(** True division [a / b] of Python numbers. *)
Definition py_div (a b : Q) : result Q :=
  if Qeq_bool b 0
  then Raise (mkExn ZeroDivisionError "float division by zero")
  else Ok (a / b).

(** ** Helper functions *)

(** [normalize_score(value, min_val, max_val, reverse=False)] *)
Definition normalize_score (value min_val max_val : Q) (reverse : bool)
  : result Q :=
  let value := py_max (py_min value max_val) min_val in
  normalized ← py_div (value - min_val) (max_val - min_val);
  if reverse then Ok ((1 - normalized) * 10) else Ok (normalized * 10).

(** The clamped value and the score as plain rationals, for statements. *)
Definition clamp (value min_val max_val : Q) : Q :=
  py_max (py_min value max_val) min_val.

(** ** Python values that reach the report *)

Inductive pyval :=
  | VNone
  | VNum (q : Q)
  | VStr (s : string).

(** [d[key]] on a dictionary. *)
Definition getitem {V} (d : gmap string V) (key : string) : result V :=
  match d !! key with
  | Some v => Ok v
  | None => Raise (mkExn KeyError key)
  end.

(** [a + b] and [a / b] on dynamically typed operands. *)
Definition py_add (a b : pyval) : result pyval :=
  match a, b with
  | VNum x, VNum y => Ok (VNum (x + y))
  | VStr x, VStr y => Ok (VStr (x +:+ y))
  | _, _ => Raise (mkExn TypeError "unsupported operand type(s) for +")
  end.

Definition py_truediv (a b : pyval) : result pyval :=
  match a, b with
  | VNum x, VNum y => q ← py_div x y; Ok (VNum q)
  | _, _ => Raise (mkExn TypeError "unsupported operand type(s) for /")
  end.

Definition is_None (v : pyval) : bool :=
  match v with VNone => true | _ => false end.

(** [isinstance(v, (int, float, np.number))] *)
Definition is_number (v : pyval) : bool :=
  match v with VNum _ => true | _ => false end.

(** ** Strings: [str.lower] and [str.split] on ASCII text *)

Definition lower_char (c : ascii) : ascii :=
  let n := nat_of_ascii c in
  if (65 <=? n)%nat && (n <=? 90)%nat then ascii_of_nat (n + 32) else c.

Fixpoint lower (s : string) : string :=
  match s with
  | EmptyString => EmptyString
  | String c s' => String (lower_char c) (lower s')
  end.

(** The ASCII characters [str.split()] separates on: tab, line feed,
    vertical tab, form feed, carriage return, the four separators
    0x1c-0x1f and space. *)
Definition is_space (c : ascii) : bool :=
  let n := nat_of_ascii c in
  ((9 <=? n)%nat && (n <=? 13)%nat) || ((28 <=? n)%nat && (n <=? 32)%nat).

(** [split_from s tok]: the tokens of [s] when [tok] is the token read so
    far. *)
Fixpoint split_from (s : string) (tok : string) : list string :=
  match s with
  | EmptyString => if String.eqb tok "" then [] else [tok]
  | String c s' =>
      if is_space c
      then (if String.eqb tok "" then split_from s' ""
            else tok :: split_from s' "")
      else split_from s' (tok +:+ String c "")
  end.

Definition split (s : string) : list string := split_from s "".

Fixpoint has_space (s : string) : bool :=
  match s with
  | EmptyString => false
  | String c s' => is_space c || has_space s'
  end.

(** ** NumPy on exact numbers *)

Record matrix := mkMatrix { mat_rows : list (list Q); mat_ncols : nat }.

Definition shape0 (m : matrix) : nat := length (mat_rows m).
Definition shape1 (m : matrix) : nat := mat_ncols m.

Definition index_error : exn := mkExn IndexError "index out of bounds".

Definition nth_or_raise {A} (l : list A) (i : nat) : result A :=
  match nth_error l i with
  | Some a => Ok a
  | None => Raise index_error
  end.

Fixpoint column_of (rows : list (list Q)) (t : nat) : result (list Q) :=
  match rows with
  | [] => Ok []
  | r :: rows' =>
      x ← nth_or_raise r t; xs ← column_of rows' t; Ok (x :: xs)
  end.

(** [m[:, t]] *)
Definition column (m : matrix) (t : nat) : result (list Q) :=
  if (t <? shape1 m)%nat then column_of (mat_rows m) t else Raise index_error.

(** [m[i, t]] *)
Definition getitem2 (m : matrix) (i t : nat) : result Q :=
  if (t <? shape1 m)%nat
  then (r ← nth_or_raise (mat_rows m) i; nth_or_raise r t)
  else Raise index_error.

(** [m[0]] *)
Definition getitem0 (m : matrix) : result (list Q) :=
  nth_or_raise (mat_rows m) 0.

(** Index of the first maximum of [x :: l], [best] being the maximum seen
    at index [besti] and [i] the index of the head of [l]. *)
Fixpoint argmax_from (l : list Q) (i besti : nat) (best : Q) : nat :=
  match l with
  | [] => besti
  | x :: l' =>
      if Qlt_bool best x then argmax_from l' (S i) i x
      else argmax_from l' (S i) besti best
  end.

Definition argmax (l : list Q) : result nat :=
  match l with
  | [] => Raise (mkExn ValueError "attempt to get argmax of an empty sequence")
  | x :: l' => Ok (argmax_from l' 1 0 x)
  end.

Definition np_abs (l : list Q) : list Q := map Qabs l.

Fixpoint np_diff (l : list Q) : list Q :=
  match l with
  | a :: (b :: _) as l' => (b - a) :: np_diff l'
  | _ => []
  end.

Definition empty_reduction (name : string) : exn :=
  mkExn ValueError
    ("zero-size array to reduction operation " +:+ name +:+
     " which has no identity").

Definition np_max (l : list Q) : result Q :=
  match l with
  | [] => Raise (empty_reduction "maximum")
  | x :: l' =>
      Ok (fold_left (fun acc z => if Qlt_bool acc z then z else acc) l' x)
  end.

Definition np_min (l : list Q) : result Q :=
  match l with
  | [] => Raise (empty_reduction "minimum")
  | x :: l' =>
      Ok (fold_left (fun acc z => if Qlt_bool z acc then z else acc) l' x)
  end.

(** [np.ptp]: peak to peak, maximum minus minimum. *)
Definition np_ptp (l : list Q) : result Q :=
  hi ← np_max l; lo ← np_min l; Ok (hi - lo).

(** [pitches[pitches > 0]]: the positive entries, in row-major order. *)
Definition mask_positive (m : matrix) : list Q :=
  concat (map (List.filter (fun x => Qlt_bool 0 x)) (mat_rows m)).

Definition Qlen {A} (l : list A) : Q := inject_Z (Z.of_nat (length l)).

(** Truth value of a list: non-empty. *)
Definition truthy {A} (l : list A) : bool :=
  match l with [] => false | _ :: _ => true end.

(** ** External calls, the trace and the monad of the pipeline *)

Inductive event :=
  | EPrint (line : string)
  | EFromFile (path : string)
  | ESetChannels (channels : Z)
  | ESetFrameRate (rate : Z)
  | EExport (format : string)
  | ELibrosaLoad (sr : Z)
  | ETranscribe
  | EPiptrack
  | ERms
  | EGetDuration
  | EOnsetDetect.

(** The calls of the loading and standardizing stage. *)
Definition is_load_event (ev : event) : bool :=
  match ev with
  | EFromFile _ | ESetChannels _ | ESetFrameRate _ | EExport _
  | ELibrosaLoad _ => true
  | _ => false
  end.

(** The calls of the transcription stage and of the three extractors. *)
Definition is_analysis_event (ev : event) : bool :=
  match ev with
  | ETranscribe | EPiptrack | ERms | EGetDuration | EOnsetDetect => true
  | _ => false
  end.

(** A computation yields the calls it made, in order, and its outcome. *)
Definition M (A : Type) : Type := (list event * result A)%type.

Definition trace {A} (m : M A) : list event := fst m.
Definition outcome {A} (m : M A) : result A := snd m.

Definition ret {A} (a : A) : M A := ([], Ok a).

Definition bind {A B} (m : M A) (k : A -> M B) : M B :=
  match m with
  | (t, Ok a) => let '(t', r) := k a in (t ++ t', r)
  | (t, Raise e) => (t, Raise e)
  end.

#[global] Instance M_ret : MRet M := @ret.
#[global] Instance M_bind : MBind M := fun A B k m => bind m k.

(** [try: body except Exception as e: handler] *)
Definition try_except {A} (body : M A) (handler : exn -> M A) : M A :=
  match body with
  | (t, Ok a) => (t, Ok a)
  | (t, Raise e) => let '(t', r) := handler e in (t ++ t', r)
  end.

Definition lift {A} (r : result A) : M A := ([], r).
Definition call {A} (ev : event) (r : result A) : M A := ([ev], r).
Definition print (line : string) : M unit := ([EPrint line], Ok tt).

(** The libraries the module imports.  [np_mean] and [np_std] are NumPy's
    reductions: the mean of an empty array is NaN and the standard deviation
    is a square root, neither has an exact rational value. *)
Record Lib := mkLib {
  Segment : Type;
  Buffer : Type;
  from_file : string -> result Segment;
  set_channels : Segment -> Z -> result Segment;
  set_frame_rate : Segment -> Z -> result Segment;
  export : Segment -> string -> result Buffer;
  librosa_load : Buffer -> Z -> result (list Q * Z);
  (* whisper's result dictionary, restricted to its string entries *)
  transcribe : list Q -> result (gmap string string);
  piptrack : list Q -> Z -> result (matrix * matrix);
  rms : list Q -> result matrix;
  get_duration : list Q -> Z -> result Q;
  onset_detect : list Q -> Z -> result (list Z);
  np_mean : list Q -> result Q;
  np_std : list Q -> result Q
}.

(** ** Core analysis functions *)

Section Analyzer.

Variable L : Lib.

(** [pitches[magnitudes[:, t].argmax(), t]] *)
Definition pitch_at (pitches magnitudes : matrix) (t : nat) : result Q :=
  col ← column magnitudes t; i ← argmax col; getitem2 pitches i t.

(** [[pitch_at(t) for t in ts if pitch_at(t) > 0]] *)
Fixpoint voiced_pitches (pitches magnitudes : matrix) (ts : list nat)
  : result (list Q) :=
  match ts with
  | [] => Ok []
  | t :: ts' =>
      c ← pitch_at pitches magnitudes t;
      if Qlt_bool 0 c
      then v ← pitch_at pitches magnitudes t;
           vs ← voiced_pitches pitches magnitudes ts';
           Ok (v :: vs)
      else voiced_pitches pitches magnitudes ts'
  end.

(** The [try] block of [analyze_clarity]. *)
Definition analyze_clarity_body (y : list Q) (sr : Z) : M Q :=
  '(pitches, magnitudes) ← call EPiptrack (piptrack L y sr);
  pitch_values ← lift (voiced_pitches pitches magnitudes
                         (seq 0 (shape1 pitches)));
  if (length pitch_values <? 2)%nat then ret 0 else
  jitter ← lift (np_mean L (np_abs (np_diff pitch_values)));
  envelope ← call ERms (rms L y);
  row ← lift (getitem0 envelope);
  shimmer ← lift (np_mean L (np_abs (np_diff row)));
  jitter_score ← lift (normalize_score jitter 0 5 true);
  shimmer_score ← lift (normalize_score shimmer 0 (1 # 10) true);
  let clarity_score := (jitter_score + shimmer_score) / 2 in
  ret clarity_score.

Definition analyze_clarity (y : list Q) (sr : Z) : M Q :=
  try_except (analyze_clarity_body y sr) (fun _ => ret 0).

Definition fillers : list string :=
  ["um"; "uh"; "like"; "you know"; "so"; "actually"; "basically"].

(** [word in fillers] *)
Definition is_filler (word : string) : bool :=
  existsb (String.eqb word) fillers.

(** [sum(1 for word in words if word in fillers)] *)
Definition filler_count (words : list string) : Z :=
  fold_left Z.add (map (fun _ => 1%Z) (List.filter is_filler words)) 0%Z.

(** The volume-stability sub-score, the first statement of the [try] block
    of [analyze_confidence]. *)
Definition volume_stability (y : list Q) : M Q :=
  envelope ← call ERms (rms L y);
  row ← lift (getitem0 envelope);
  deviation ← lift (np_std L row);
  lift (normalize_score deviation 0 (1 # 10) true).

(** The [try] block of [analyze_confidence]. *)
Definition analyze_confidence_body (y : list Q) (sr : Z)
    (transcribed_text : string) : M Q :=
  volume_stability_score ← volume_stability y;
  let words := split (lower transcribed_text) in
  if negb (truthy words) then ret volume_stability_score else
  filler_ratio ← lift (if truthy words
                       then py_div (inject_Z (filler_count words))
                                   (Qlen words / 100)
                       else Ok 0);
  filler_word_score ← lift (normalize_score filler_ratio 0 10 true);
  ret ((volume_stability_score + filler_word_score) / 2).

Definition analyze_confidence (y : list Q) (sr : Z)
    (transcribed_text : string) : M Q :=
  try_except (analyze_confidence_body y sr transcribed_text)
             (fun _ => ret 0).

(** The [try] block of [analyze_energy_engagement]. *)
Definition analyze_energy_engagement_body (y : list Q) (sr : Z) : M Q :=
  '(pitches, _) ← call EPiptrack (piptrack L y sr);
  let pitch_values := mask_positive pitches in
  duration ← call EGetDuration (get_duration L y sr);
  if Qeq_bool duration 0 then ret 0 else
  spread ← lift (if (1 <? length pitch_values)%nat
                 then np_ptp pitch_values else Ok 0);
  pitch_range_score ← lift (normalize_score spread 50 250 false);
  onsets ← call EOnsetDetect (onset_detect L y sr);
  rate ← lift (py_div (Qlen onsets) duration);
  speech_rate_score ← lift (normalize_score rate 2 6 false);
  ret ((pitch_range_score + speech_rate_score) / 2).

Definition analyze_energy_engagement (y : list Q) (sr : Z) : M Q :=
  try_except (analyze_energy_engagement_body y sr) (fun _ => ret 0).

End Analyzer.

Definition placeholder_mood_analysis : gmap string string :=
  {[ "Status" := "Not Implemented" ]}.

Definition placeholder_professionalism_score (clarity confidence : pyval)
  : result pyval :=
  if is_None clarity || is_None confidence
  then Ok (VStr "Not Calculated")
  else total ← py_add clarity confidence; py_truediv total (VNum 2).

(** ** Main analysis runner *)

Definition silent_report : gmap string pyval :=
  {[ "Clarity Score" := VNum 0;
     "Confidence Score" := VNum 0;
     "Energy & Engagement Score" := VNum 0;
     "Professionalism Score" := VNum 0;
     "Mood Analysis" := VStr "Not Implemented";
     "Transcription" := VStr "Audio is silent or contains no speech." ]}.

Definition error_report (e : exn) : gmap string pyval :=
  {[ "error" := VStr ("Could not load audio file: " +:+ exn_str e) ]}.

Section Runner.

Variable L : Lib.

(** The [try] block of [run_full_analysis]: load, standardize, re-decode.
    ([io.BytesIO()] and [seek(0)] on it cannot fail and make no library
    call.) *)
Definition load_audio (audio_path : string) : M (list Q * Z) :=
  audio_segment ← call (EFromFile audio_path) (from_file L audio_path);
  audio_segment ← call (ESetChannels 1) (set_channels L audio_segment 1);
  audio_segment ← call (ESetFrameRate 16000)
                       (set_frame_rate L audio_segment 16000);
  wav_buffer ← call (EExport "wav") (export L audio_segment "wav");
  call (ELibrosaLoad 16000) (librosa_load L wav_buffer 16000).

(** What follows the silence check. *)
Definition analyze_speech (y : list Q) (sr : Z) : M (gmap string pyval) :=
  _ ← print "Transcribing audio data...";
  transcription_result ← call ETranscribe (transcribe L y);
  transcribed_text ← lift (getitem transcription_result "text");
  _ ← print ("Transcription: '" +:+ transcribed_text +:+ "'");
  clarity_score ← analyze_clarity L y sr;
  confidence_score ← analyze_confidence L y sr transcribed_text;
  engagement_score ← analyze_energy_engagement L y sr;
  professionalism_score ←
    lift (placeholder_professionalism_score (VNum clarity_score)
                                            (VNum confidence_score));
  let mood_report := placeholder_mood_analysis in
  status ← lift (getitem mood_report "Status");
  ret ({[ "Clarity Score" := VNum clarity_score;
          "Confidence Score" := VNum confidence_score;
          "Energy & Engagement Score" := VNum engagement_score;
          "Professionalism Score" :=
            (if is_number professionalism_score
             then professionalism_score else VStr "Not Calculated");
          "Mood Analysis" := VStr status;
          "Transcription" := VStr transcribed_text ]} : gmap string pyval).

(** What follows a successful load: the silence check, then the analysis. *)
Definition after_load (y : list Q) (sr : Z) : M (gmap string pyval) :=
  peak ← lift (np_max (np_abs y));
  if Qlt_bool peak (1 # 1000) then ret silent_report
  else analyze_speech y sr.

Definition run_full_analysis (audio_path : string)
  : M (gmap string pyval) :=
  _ ← print ("Processing file: " +:+ audio_path +:+ "...");
  loaded ← try_except (loaded ← load_audio audio_path; ret (inl loaded))
                      (fun e => ret (inr (error_report e)));
  match loaded with
  | inr report => ret report
  | inl (y, sr) => after_load y sr
  end.

End Runner.

(** ** The web endpoint of [main.py]

    The request is reduced to [request.files]; an upload is its
    [filename] and the truth value of the file object ([if file:]).  The
    host capabilities are werkzeug's [secure_filename] and [file.save],
    [os.path.join], [os.path.exists], [os.remove] and the test
    [isinstance(e, OSError)].  A view returns a body, alone or with a status
    code. *)

Record upload := mkUpload { filename : string; truth : bool }.

Record Host := mkHost {
  secure_filename : string -> string;
  path_join : string -> string -> string;
  save : upload -> string -> result unit;
  path_exists : string -> bool;
  os_remove : string -> result unit;
  is_OSError : exn -> bool
}.

Inductive web_event :=
  | WSave (path : string)
  | WAnalysis (ev : event)
  | WSleep (seconds : Q)
  | WExists (path : string)
  | WRemove (path : string)
  | WPrint (line : string).

Inductive response :=
  | Response (body : gmap string pyval) (status : option Z).

Definition body_of (r : response) : gmap string pyval :=
  match r with Response body _ => body end.

(** The status code sent: the one returned with the body, else Flask's
    default. *)
Definition status_code (r : response) : Z :=
  match r with
  | Response _ (Some code) => code
  | Response _ None => 200
  end.

(** [jsonify({"error": message}), code] *)
Definition error_response (message : string) (code : Z) : response :=
  Response {[ "error" := VStr message ]} (Some code).

Definition W (A : Type) : Type := (list web_event * result A)%type.

Definition wtrace {A} (m : W A) : list web_event := fst m.
Definition woutcome {A} (m : W A) : result A := snd m.

Definition wret {A} (a : A) : W A := ([], Ok a).

Definition wbind {A B} (m : W A) (k : A -> W B) : W B :=
  match m with
  | (t, Ok a) => let '(t', r) := k a in (t ++ t', r)
  | (t, Raise e) => (t, Raise e)
  end.

#[global] Instance W_ret : MRet W := @wret.
#[global] Instance W_bind : MBind W := fun A B k m => wbind m k.

Definition wcall {A} (ev : web_event) (r : result A) : W A := ([ev], r).

(** A call into the analysis module, with the calls it makes. *)
Definition run_analysis {A} (m : M A) : W A :=
  (map WAnalysis (trace m), outcome m).

(** [try: body except C as e: handler], [catches] deciding
    [isinstance(e, C)]. *)
Definition wtry {A} (body : W A) (catches : exn -> bool)
    (handler : exn -> W A) : W A :=
  match body with
  | (t, Ok a) => (t, Ok a)
  | (t, Raise e) =>
      if catches e then let '(t', r) := handler e in (t ++ t', r)
      else (t, Raise e)
  end.

Definition UPLOAD_FOLDER : string := "uploads".

Section Endpoint.

Variable H : Host.
Variable L : Lib.

(** The [finally] block of [analyze_audio]. *)
Definition clean_up (temp_audio_path : string) : W unit :=
  _ ← wcall (WSleep (1 # 10)) (Ok tt);
  present ← wcall (WExists temp_audio_path)
                  (Ok (path_exists H temp_audio_path));
  if (present : bool)
  then wtry (wcall (WRemove temp_audio_path) (os_remove H temp_audio_path))
            (is_OSError H)
            (fun e => wcall (WPrint ("Error removing file " +:+ temp_audio_path
                                     +:+ ": " +:+ exn_str e))
                            (Ok tt))
  else wret tt.

Definition analyze_audio (files : gmap string upload) : W response :=
  match files !! "audio_file" with
  | None => wret (error_response "No audio file part in the request" 400)
  | Some file =>
      if String.eqb (filename file) ""
      then wret (error_response "No selected file" 400)
      else if truth file then
        let filename := secure_filename H (filename file) in
        let temp_audio_path := path_join H UPLOAD_FOLDER filename in
        _ ← wcall (WSave temp_audio_path) (save H file temp_audio_path);
        attempt ←
          wtry (analysis_results ←
                  run_analysis (run_full_analysis L temp_audio_path);
                wret (inl analysis_results))
               (fun _ => true)
               (fun e => wret (inr (error_response
                                      ("Analysis failed unexpectedly: "
                                       +:+ exn_str e) 500)));
        _ ← clean_up temp_audio_path;
        match attempt with
        | inr failure => wret failure
        | inl analysis_results =>
            match analysis_results !! "error" with
            | Some _ => wret (Response analysis_results (Some 500%Z))
            | None => wret (Response analysis_results None)
            end
        end
      else wret (error_response "An unknown error occurred" 500)
  end.

End Endpoint.

(** ** Test doubles for the libraries

    A small library instance on which the pipeline can be run: a "file" is
    named by its path, decoding fails on anything but the three known
    paths. *)

Definition mean_of (l : list Q) : result Q :=
  py_div (fold_left Qplus l 0) (Qlen l).

Definition demo_samples (path : string) : result (list Q) :=
  if String.eqb path "speech.wav" then Ok [1 # 4; -(1 # 2); 3 # 10; 0]
  else if String.eqb path "silence.wav" then Ok [0; 1 # 2000; 0]
  else if String.eqb path "hum.wav" then Ok [1 # 5; 1 # 5]
  else if String.eqb path "click.wav" then Ok [1 # 2]
  else Raise (mkExn LibraryError
                "Decoding failed. ffmpeg returned error code: 1").

Definition demo_pitches : matrix :=
  mkMatrix [[0; 0; 0]; [120; 0; 131]; [0; 300; 0]] 3.

Definition demo_magnitudes : matrix :=
  mkMatrix [[1 # 10; 1 # 10; 2 # 10];
            [9 # 10; 1 # 10; 8 # 10];
            [0; 1 # 10; 0]] 3.

(** A pitch track with a single voiced frame. *)
Definition hum_pitches : matrix := mkMatrix [[0; 0]; [110; 0]] 2.

Definition hum_magnitudes : matrix :=
  mkMatrix [[1 # 10; 1 # 10]; [5 # 10; 0]] 2.

Definition demo_lib : Lib := {|
  Segment := list Q;
  Buffer := list Q;
  from_file := demo_samples;
  set_channels := fun seg _ => Ok seg;
  set_frame_rate := fun seg _ => Ok seg;
  export := fun seg _ => Ok seg;
  librosa_load := fun buf sr => Ok (buf, sr);
  transcribe := fun y =>
    if (length y <? 3)%nat then Ok ({[ "text" := " " ]} : gmap string string)
    else Ok ({[ "text" := " Um so I like you know Rocq" ;
                "language" := "en" ]} : gmap string string);
  piptrack := fun y _ =>
    if (length y <? 2)%nat
    then Raise (mkExn LibraryError "piptrack: input too short")
    else if (length y =? 2)%nat then Ok (hum_pitches, hum_magnitudes)
    else Ok (demo_pitches, demo_magnitudes);
  rms := fun y => Ok (mkMatrix [np_abs y] (length y));
  get_duration := fun y sr => py_div (Qlen y) (inject_Z sr);
  onset_detect := fun y _ => Ok [0%Z; 2%Z];
  np_mean := mean_of;
  (* a rational stand-in for the deviation: half the spread *)
  np_std := fun l => hi ← np_max l; lo ← np_min l; Ok ((hi - lo) / 2)
|}.

(** The report of the pipeline on the demo speech clip. *)
Definition demo_report : gmap string pyval :=
  Eval vm_compute in
    match outcome (run_full_analysis demo_lib "speech.wav") with
    | Ok report => report
    | Raise _ => ∅
    end.

(** The demo library with a duration query that always answers 0. *)
Definition zero_duration_lib : Lib := {|
  Segment := Segment demo_lib;
  Buffer := Buffer demo_lib;
  from_file := from_file demo_lib;
  set_channels := set_channels demo_lib;
  set_frame_rate := set_frame_rate demo_lib;
  export := export demo_lib;
  librosa_load := librosa_load demo_lib;
  transcribe := transcribe demo_lib;
  piptrack := piptrack demo_lib;
  rms := rms demo_lib;
  get_duration := fun _ _ => Ok 0;
  onset_detect := onset_detect demo_lib;
  np_mean := np_mean demo_lib;
  np_std := np_std demo_lib
|}.

(** The demo library with a decoder that yields no sample at all, and
    with a whisper that fails. *)
Definition empty_clip_lib : Lib := {|
  Segment := Segment demo_lib;
  Buffer := Buffer demo_lib;
  from_file := fun _ => Ok [];
  set_channels := set_channels demo_lib;
  set_frame_rate := set_frame_rate demo_lib;
  export := export demo_lib;
  librosa_load := librosa_load demo_lib;
  transcribe := transcribe demo_lib;
  piptrack := piptrack demo_lib;
  rms := rms demo_lib;
  get_duration := get_duration demo_lib;
  onset_detect := onset_detect demo_lib;
  np_mean := np_mean demo_lib;
  np_std := np_std demo_lib
|}.

Definition out_of_memory : exn :=
  mkExn LibraryError "CUDA out of memory".

Definition deaf_lib : Lib := {|
  Segment := Segment demo_lib;
  Buffer := Buffer demo_lib;
  from_file := from_file demo_lib;
  set_channels := set_channels demo_lib;
  set_frame_rate := set_frame_rate demo_lib;
  export := export demo_lib;
  librosa_load := librosa_load demo_lib;
  transcribe := fun _ => Raise out_of_memory;
  piptrack := piptrack demo_lib;
  rms := rms demo_lib;
  get_duration := get_duration demo_lib;
  onset_detect := onset_detect demo_lib;
  np_mean := np_mean demo_lib;
  np_std := np_std demo_lib
|}.

(** The demo library behind the endpoint: uploads live under "uploads/". *)
Definition served_lib : Lib := {|
  Segment := Segment demo_lib;
  Buffer := Buffer demo_lib;
  from_file := fun path =>
    demo_samples (String.substring 8 (String.length path - 8) path);
  set_channels := set_channels demo_lib;
  set_frame_rate := set_frame_rate demo_lib;
  export := export demo_lib;
  librosa_load := librosa_load demo_lib;
  transcribe := transcribe demo_lib;
  piptrack := piptrack demo_lib;
  rms := rms demo_lib;
  get_duration := get_duration demo_lib;
  onset_detect := onset_detect demo_lib;
  np_mean := np_mean demo_lib;
  np_std := np_std demo_lib
|}.

(** A host on which every upload is saved and removed without trouble, and
    one on which the saved file stays locked. *)
Definition demo_host : Host := {|
  secure_filename := fun name => name;
  path_join := fun folder name => folder +:+ "/" +:+ name;
  save := fun _ _ => Ok tt;
  path_exists := fun _ => true;
  os_remove := fun _ => Ok tt;
  is_OSError := fun e =>
    match exn_cls e with LibraryError => true | _ => false end
|}.

Definition locked_host : Host := {|
  secure_filename := secure_filename demo_host;
  path_join := path_join demo_host;
  save := save demo_host;
  path_exists := path_exists demo_host;
  os_remove := fun _ =>
    Raise (mkExn LibraryError
             "[WinError 32] The process cannot access the file");
  is_OSError := is_OSError demo_host
|}.

Definition full_disk_host : Host := {|
  secure_filename := secure_filename demo_host;
  path_join := path_join demo_host;
  save := fun _ _ =>
    Raise (mkExn LibraryError "[Errno 28] No space left on device");
  path_exists := path_exists demo_host;
  os_remove := os_remove demo_host;
  is_OSError := is_OSError demo_host
|}.

Definition demo_files (name : string) : gmap string upload :=
  {[ "audio_file" := mkUpload name true ]}.

Definition demo_speech : list Q := [1 # 4; -(1 # 2); 3 # 10; 0].

(** The volume-stability sub-score of the demo speech clip. *)
Definition demo_volume : Q :=
  Eval vm_compute in
    match outcome (volume_stability demo_lib demo_speech) with
    | Ok v => v
    | Raise _ => 0
    end.

(** ** Specification vocabulary *)

(** The score [normalize_score] computes when its bounds differ. *)
Definition score_of (value min_val max_val : Q) (reverse : bool) : Q :=
  let normalized := (clamp value min_val max_val - min_val)
                    / (max_val - min_val) in
  if reverse then (1 - normalized) * 10 else normalized * 10.

Definition in_range (q : Q) : Prop := 0 <= q <= 10.

(** [post m P]: if [m] returns a value, the value satisfies [P]. *)
Definition post {A} (m : M A) (P : A -> Prop) : Prop :=
  forall a, outcome m = Ok a -> P a.

(** [returns m]: [m] returns a value, it does not raise. *)
Definition returns {A} (m : M A) : Prop := exists a, outcome m = Ok a.

(** The numeric fields of a report. *)
Definition score_keys : list string :=
  ["Clarity Score"; "Confidence Score"; "Energy & Engagement Score";
   "Professionalism Score"].

(** The filler list without its two-word entry. *)
Definition one_word_fillers : list string :=
  ["um"; "uh"; "like"; "so"; "actually"; "basically"].

(** [" ".join(words)] *)
Fixpoint join_spaces (words : list string) : string :=
  match words with
  | [] => ""
  | [word] => word
  | word :: words' => word +:+ " " +:+ join_spaces words'
  end.

(** A token as [str.split()] yields them: not empty, no whitespace. *)
Definition is_token (word : string) : Prop :=
  word <> "" /\ has_space word = false.

(** The path under which [analyze_audio] stores an upload. *)
Definition temp_path (H : Host) (file : upload) : string :=
  path_join H UPLOAD_FOLDER (secure_filename H (filename file)).

(** The response [analyze_audio] builds from what the analysis did. *)
Definition response_of (attempt : result (gmap string pyval)) : response :=
  match attempt with
  | Raise e =>
      error_response ("Analysis failed unexpectedly: " +:+ exn_str e) 500
  | Ok report =>
      match report !! "error" with
      | Some _ => Response report (Some 500%Z)
      | None => Response report None
      end
  end.

(** A request whose upload passes the checks of [analyze_audio]. *)
Definition usable (files : gmap string upload) (file : upload) : Prop :=
  files !! "audio_file" = Some file
  /\ filename file <> "" /\ truth file = true.

(** The keys of a report that is not the error mapping. *)
Definition report_keys : gset string :=
  {[ "Clarity Score"; "Confidence Score"; "Energy & Engagement Score";
     "Professionalism Score"; "Mood Analysis"; "Transcription" ]}.

(** A two-dimensional array whose rows all have the declared width. *)
Definition well_formed (m : matrix) : Prop :=
  Forall (fun row => length row = mat_ncols m) (mat_rows m).

Definition same_shape (a b : matrix) : Prop :=
  shape0 a = shape0 b /\ shape1 a = shape1 b.

(** * Properties *)

(** ** The normalizer *)

Lemma Qlt_bool_iff a b : Qlt_bool a b = true <-> a < b.
Proof.
  unfold Qlt_bool. rewrite negb_true_iff, <- not_true_iff_false, Qle_bool_iff.
  split; [apply Qnot_le_lt | apply Qlt_not_le].
Qed.

Lemma Qlt_bool_false a b : Qlt_bool a b = false <-> b <= a.
Proof.
  unfold Qlt_bool. rewrite negb_false_iff. apply Qle_bool_iff.
Qed.

Lemma clamp_bounds v lo hi : lo <= hi -> lo <= clamp v lo hi <= hi.
Proof.
  intros Hlh. unfold clamp, py_max, py_min.
  destruct (Qlt_bool hi v) eqn:E1.
  - destruct (Qlt_bool hi lo) eqn:E2.
    + apply Qlt_bool_iff in E2. lra.
    + lra.
  - apply Qlt_bool_false in E1.
    destruct (Qlt_bool v lo) eqn:E2.
    + lra.
    + apply Qlt_bool_false in E2. lra.
Qed.

Lemma clamp_inside v lo hi : lo <= v <= hi -> clamp v lo hi = v.
Proof.
  intros [H1 H2]. unfold clamp, py_max, py_min.
  destruct (Qlt_bool hi v) eqn:E1.
  - apply Qlt_bool_iff in E1. lra.
  - destruct (Qlt_bool v lo) eqn:E2; [|reflexivity].
    apply Qlt_bool_iff in E2. lra.
Qed.

Lemma clamp_below v lo hi : lo <= hi -> v <= lo -> clamp v lo hi == lo.
Proof.
  intros Hlh H. unfold clamp, py_max, py_min.
  destruct (Qlt_bool hi v) eqn:E1.
  - apply Qlt_bool_iff in E1. lra.
  - destruct (Qlt_bool v lo) eqn:E2; [reflexivity|].
    apply Qlt_bool_false in E2. lra.
Qed.

Lemma clamp_above v lo hi : lo <= hi -> hi <= v -> clamp v lo hi == hi.
Proof.
  intros Hlh H. unfold clamp, py_max, py_min.
  destruct (Qlt_bool hi v) eqn:E1.
  - destruct (Qlt_bool hi lo) eqn:E2; [|reflexivity].
    apply Qlt_bool_iff in E2. lra.
  - apply Qlt_bool_false in E1.
    destruct (Qlt_bool v lo) eqn:E2.
    + apply Qlt_bool_iff in E2. lra.
    + lra.
Qed.


Lemma ratio_bounds c lo hi :
  lo < hi -> lo <= c <= hi -> 0 <= (c - lo) / (hi - lo) <= 1.
Proof.
  intros Hlt [H1 H2]. split.
  - apply Qle_shift_div_l; lra.
  - apply Qle_shift_div_r; lra.
Qed.


Lemma py_div_nonzero a b : ~ b == 0 -> py_div a b = Ok (a / b).
Proof.
  intros Hb. unfold py_div. destruct (Qeq_bool b 0) eqn:E; [|reflexivity].
  apply Qeq_bool_iff in E. contradiction.
Qed.

Lemma normalize_score_eq value min_val max_val reverse :
  min_val < max_val ->
  normalize_score value min_val max_val reverse
  = Ok (score_of value min_val max_val reverse).
Proof.
  intros Hlt. unfold normalize_score, score_of, clamp.
  rewrite py_div_nonzero by lra. simpl. destruct reverse; reflexivity.
Qed.

Lemma score_of_range value min_val max_val reverse :
  min_val < max_val -> in_range (score_of value min_val max_val reverse).
Proof.
  intros Hlt. unfold score_of, in_range.
  pose proof (clamp_bounds value min_val max_val (Qlt_le_weak _ _ Hlt)) as Hc.
  pose proof (ratio_bounds _ _ _ Hlt Hc) as Hn.
  destruct reverse; lra.
Qed.


Lemma score_of_low value min_val max_val (reverse : bool) :
  min_val < max_val -> value <= min_val ->
  score_of value min_val max_val reverse == (if reverse then 10 else 0).
Proof.
  intros Hlt H. unfold score_of.
  assert (Hc : clamp value min_val max_val == min_val)
    by (apply clamp_below; lra).
  destruct reverse; rewrite Hc; field; lra.
Qed.

Lemma score_of_high value min_val max_val (reverse : bool) :
  min_val < max_val -> max_val <= value ->
  score_of value min_val max_val reverse == (if reverse then 0 else 10).
Proof.
  intros Hlt H. unfold score_of.
  assert (Hc : clamp value min_val max_val == max_val)
    by (apply clamp_above; lra).
  destruct reverse; rewrite Hc; field; lra.
Qed.



(** Equal bounds are not checked for: the division raises. *)
Remark normalize_score_degenerate value min_val max_val reverse :
  min_val == max_val ->
  normalize_score value min_val max_val reverse
  = Raise (mkExn ZeroDivisionError "float division by zero").
Proof.
  intros Heq. unfold normalize_score, py_div.
  assert (E : Qeq_bool (max_val - min_val) 0 = true)
    by (apply Qeq_bool_iff; lra).
  rewrite E. reflexivity.
Qed.

(** ** Computations: outcome and trace of the combinators *)

Lemma outcome_bind {A B} (m : M A) (k : A -> M B) :
  outcome (m ≫= k)
  = match outcome m with Ok a => outcome (k a) | Raise e => Raise e end.
Proof.
  destruct m as [t [a|e]]; simpl; [|reflexivity].
  unfold mbind, M_bind, bind. destruct (k a); reflexivity.
Qed.

Lemma trace_bind {A B} (m : M A) (k : A -> M B) :
  trace (m ≫= k)
  = trace m ++ match outcome m with Ok a => trace (k a) | Raise _ => [] end.
Proof.
  destruct m as [t [a|e]]; simpl.
  - unfold mbind, M_bind, bind. destruct (k a); reflexivity.
  - symmetry. apply app_nil_r.
Qed.

Lemma outcome_try_except {A} (body : M A) (handler : exn -> M A) :
  outcome (try_except body handler)
  = match outcome body with Ok a => Ok a | Raise e => outcome (handler e) end.
Proof.
  destruct body as [t [a|e]]; simpl; [reflexivity|].
  destruct (handler e); reflexivity.
Qed.

Lemma trace_try_except {A} (body : M A) (handler : exn -> M A) :
  trace (try_except body handler)
  = trace body
    ++ match outcome body with Ok _ => [] | Raise e => trace (handler e) end.
Proof.
  destruct body as [t [a|e]]; simpl.
  - symmetry. apply app_nil_r.
  - destruct (handler e); reflexivity.
Qed.

Lemma outcome_lift {A} (r : result A) : outcome (lift r) = r.
Proof. reflexivity. Qed.

Lemma outcome_call {A} ev (r : result A) : outcome (call ev r) = r.
Proof. reflexivity. Qed.

Lemma outcome_ret {A} (a : A) : outcome (mret a : M A) = Ok a.
Proof. reflexivity. Qed.

(** ** Postconditions *)

Lemma post_ret {A} (a : A) (P : A -> Prop) : P a -> post (mret a) P.
Proof. intros H b [= <-]. exact H. Qed.

Lemma post_lift {A} (r : result A) (P : A -> Prop) :
  (forall a, r = Ok a -> P a) -> post (lift r) P.
Proof. intros H a Ha. apply H, Ha. Qed.

Lemma post_call {A} ev (r : result A) (P : A -> Prop) :
  (forall a, r = Ok a -> P a) -> post (call ev r) P.
Proof. intros H a Ha. apply H, Ha. Qed.

Lemma post_bind {A B} (m : M A) (k : A -> M B) (P : B -> Prop) :
  (forall a, outcome m = Ok a -> post (k a) P) -> post (m ≫= k) P.
Proof.
  intros H b. rewrite outcome_bind. destruct (outcome m) as [a|e] eqn:E.
  - apply (H a eq_refl).
  - discriminate.
Qed.

Lemma post_try_except {A} (body : M A) handler (P : A -> Prop) :
  post body P -> (forall e, post (handler e) P) ->
  post (try_except body handler) P.
Proof.
  intros Hb Hh a. rewrite outcome_try_except.
  destruct (outcome body) as [b|e] eqn:E.
  - intros [= <-]. apply Hb, E.
  - apply Hh.
Qed.

Lemma try_except_returns {A} (body : M A) (a0 : A) :
  returns (try_except body (fun _ => mret a0)).
Proof.
  unfold returns. rewrite outcome_try_except.
  destruct (outcome body) as [a|e]; eauto.
Qed.

Lemma try_except_absorbs {A} (body : M A) (a0 : A) e :
  outcome body = Raise e ->
  outcome (try_except body (fun _ => mret a0)) = Ok a0.
Proof. intros H. rewrite outcome_try_except, H. reflexivity. Qed.

(** ** The extractors *)

Lemma in_range_zero : in_range 0.
Proof. unfold in_range. lra. Qed.

Lemma in_range_mean a b : in_range a -> in_range b -> in_range ((a + b) / 2).
Proof.
  unfold in_range. intros Ha Hb.
  split; [apply Qle_shift_div_l | apply Qle_shift_div_r]; lra.
Qed.

Lemma normalize_score_in_range value min_val max_val reverse r :
  normalize_score value min_val max_val reverse = Ok r ->
  min_val < max_val -> in_range r.
Proof.
  intros Hr Hlt. rewrite normalize_score_eq in Hr by assumption.
  injection Hr as <-. apply score_of_range, Hlt.
Qed.

Create HintDb scores.
#[local] Hint Resolve in_range_zero in_range_mean : scores.

Ltac post_step :=
  lazymatch goal with
  | |- post (try_except _ _) _ =>
      apply post_try_except; [|intros ?; apply post_ret; auto with scores]
  | |- post (mret _) _ => apply post_ret; auto with scores
  | |- post (ret _) _ => apply post_ret; auto with scores
  | |- post (if ?b then _ else _) _ => destruct b eqn:?
  | |- post (_ ≫= _) _ =>
      let a := fresh "a" in
      let H := fresh "H" in
      apply post_bind; intros a H;
      try rewrite outcome_lift in H; try rewrite outcome_call in H
  end.

Lemma analyze_clarity_in_range L y sr :
  post (analyze_clarity L y sr) in_range.
Proof.
  unfold analyze_clarity, analyze_clarity_body.
  post_step. post_step. destruct a as [pitches magnitudes].
  repeat post_step.
  apply in_range_mean;
    (eapply normalize_score_in_range; [eassumption | reflexivity]).
Qed.

Lemma volume_stability_in_range L y : post (volume_stability L y) in_range.
Proof.
  unfold volume_stability. repeat post_step.
  apply post_lift. intros r Hr.
  eapply normalize_score_in_range; [exact Hr | reflexivity].
Qed.

Lemma analyze_confidence_in_range L y sr text :
  post (analyze_confidence L y sr text) in_range.
Proof.
  unfold analyze_confidence, analyze_confidence_body.
  post_step. apply post_bind. intros v Hv.
  apply volume_stability_in_range in Hv.
  repeat post_step.
  apply in_range_mean; [assumption|].
  eapply normalize_score_in_range; [eassumption | reflexivity].
Qed.

Lemma analyze_energy_engagement_in_range L y sr :
  post (analyze_energy_engagement L y sr) in_range.
Proof.
  unfold analyze_energy_engagement, analyze_energy_engagement_body.
  post_step. post_step. destruct a as [pitches other].
  repeat post_step.
  apply in_range_mean;
    (eapply normalize_score_in_range; [eassumption | reflexivity]).
Qed.

(** C6. Each extractor returns a value on every input, and when the code of
    its [try] block raises an exception the value is 0.0: the exception
    does not reach the caller. *)
Theorem extractors_absorb_exceptions (L : Lib) (y : list Q) (sr : Z)
    (text : string) :
  (returns (analyze_clarity L y sr)
   /\ forall e, outcome (analyze_clarity_body L y sr) = Raise e ->
                outcome (analyze_clarity L y sr) = Ok 0)
  /\ (returns (analyze_confidence L y sr text)
      /\ forall e, outcome (analyze_confidence_body L y sr text) = Raise e ->
                   outcome (analyze_confidence L y sr text) = Ok 0)
  /\ (returns (analyze_energy_engagement L y sr)
      /\ forall e, outcome (analyze_energy_engagement_body L y sr) = Raise e ->
                   outcome (analyze_energy_engagement L y sr) = Ok 0).
Proof.
  repeat split;
    solve [apply try_except_returns
          | intros e He; apply (try_except_absorbs _ _ e He)].
Qed.

Lemma extractors_absorb_exceptions_witness :
  outcome (analyze_clarity_body demo_lib [1 # 2] 16000)
  = Raise (mkExn LibraryError "piptrack: input too short")
  /\ outcome (analyze_clarity demo_lib [1 # 2] 16000) = Ok 0.
Proof.
  split; [reflexivity|].
  apply (extractors_absorb_exceptions demo_lib [1 # 2] 16000 "")
    with (e := mkExn LibraryError "piptrack: input too short").
  reflexivity.
Defined.

Lemma voiced_pitches_positive pitches magnitudes ts vs :
  voiced_pitches pitches magnitudes ts = Ok vs -> Forall (fun v => 0 < v) vs.
Proof.
  revert vs. induction ts as [|t ts IH]; simpl; intros vs.
  - intros [= <-]. constructor.
  - destruct (pitch_at pitches magnitudes t) as [c|e] eqn:Ec; simpl;
      [|discriminate].
    destruct (Qlt_bool 0 c) eqn:Epos; [|apply IH]. simpl.
    destruct (voiced_pitches pitches magnitudes ts) as [ws|e]; simpl;
      [|discriminate].
    intros [= <-]. constructor; [|apply IH; reflexivity].
    apply Qlt_bool_iff, Epos.
Qed.

(** C7. When the pitch track has fewer than two voiced frames (frames whose
    strongest bin has a positive pitch), the [try] block of
    [analyze_clarity] itself returns 0.0 right after the pitch tracking: no
    exception is involved, and [analyze_clarity] returns 0.0. *)
Theorem clarity_floor (L : Lib) (y : list Q) (sr : Z)
    (pitches magnitudes : matrix) (pitch_values : list Q) :
  piptrack L y sr = Ok (pitches, magnitudes) ->
  voiced_pitches pitches magnitudes (seq 0 (shape1 pitches))
  = Ok pitch_values ->
  (length pitch_values < 2)%nat ->
  analyze_clarity_body L y sr = ([EPiptrack], Ok 0)
  /\ analyze_clarity L y sr = ([EPiptrack], Ok 0).
Proof.
  intros Htrack Hvoiced Hfew.
  assert (Hbody : analyze_clarity_body L y sr = ([EPiptrack], Ok 0)).
  { unfold analyze_clarity_body, call, lift. rewrite Htrack. simpl.
    rewrite Hvoiced. simpl.
    apply Nat.ltb_lt in Hfew. rewrite Hfew. reflexivity. }
  split; [exact Hbody|].
  unfold analyze_clarity. rewrite Hbody. reflexivity.
Qed.

Lemma clarity_floor_witness :
  voiced_pitches hum_pitches hum_magnitudes (seq 0 (shape1 hum_pitches))
  = Ok [110]
  /\ analyze_clarity demo_lib [1 # 5; 1 # 5] 16000 = ([EPiptrack], Ok 0).
Proof.
  split; [reflexivity|].
  apply (clarity_floor demo_lib [1 # 5; 1 # 5] 16000
           hum_pitches hum_magnitudes [110]);
    [reflexivity | reflexivity | simpl; lia].
Defined.

Lemma bind_ret_r {A} (m : M A) : m ≫= (fun a => ret a) = m.
Proof.
  destruct m as [t [a|e]]; [|reflexivity].
  unfold mbind, M_bind, bind, ret. rewrite app_nil_r. reflexivity.
Qed.

(** C8. When the lower-cased text has no whitespace-separated token,
    [analyze_confidence] returns the volume-stability sub-score
    [normalize_score(np.std(rms[0]), 0, 0.1, reverse=True)] itself, not an
    average with a filler sub-score (and 0.0 if computing that sub-score
    raises). *)
Theorem confidence_without_words (L : Lib) (y : list Q) (sr : Z)
    (text : string) :
  split (lower text) = [] ->
  analyze_confidence L y sr text
  = try_except (volume_stability L y) (fun _ => ret 0)
  /\ forall envelope row deviation,
       rms L y = Ok envelope ->
       getitem0 envelope = Ok row ->
       np_std L row = Ok deviation ->
       outcome (volume_stability L y)
       = normalize_score deviation 0 (1 # 10) true
       /\ outcome (analyze_confidence L y sr text)
          = normalize_score deviation 0 (1 # 10) true
       /\ outcome (analyze_confidence L y sr text)
          = Ok (score_of deviation 0 (1 # 10) true).
Proof.
  intros Hwords.
  assert (Hconf : analyze_confidence L y sr text
                  = try_except (volume_stability L y) (fun _ => ret 0)).
  { unfold analyze_confidence, analyze_confidence_body.
    rewrite Hwords. change (negb (truthy (@nil string))) with true.
    cbv iota. rewrite (bind_ret_r (volume_stability L y)). reflexivity. }
  split; [exact Hconf|].
  intros envelope row deviation Hrms Hrow Hstd.
  assert (Hvol : volume_stability L y
                 = ([ERms], normalize_score deviation 0 (1 # 10) true)).
  { unfold volume_stability, call, lift. rewrite Hrms. simpl.
    rewrite Hrow. simpl. rewrite Hstd. simpl.
    destruct (normalize_score deviation 0 (1 # 10) true); reflexivity. }
  rewrite Hconf, Hvol, normalize_score_eq by reflexivity. auto.
Qed.

Lemma confidence_without_words_witness :
  split (lower " ") = []
  /\ outcome (analyze_confidence demo_lib [1 # 5; 1 # 5] 16000 " ")
     = normalize_score (((1 # 5) - (1 # 5)) / 2) 0 (1 # 10) true.
Proof.
  split; [reflexivity|].
  destruct (confidence_without_words demo_lib [1 # 5; 1 # 5] 16000 " "
              eq_refl) as [_ Hscore].
  apply (Hscore (mkMatrix [[1 # 5; 1 # 5]] 2) [1 # 5; 1 # 5]
                (((1 # 5) - (1 # 5)) / 2)); reflexivity.
Defined.

(** ** Tokens and filler words *)

Lemma has_space_snoc tok c :
  has_space (tok +:+ String c "") = has_space tok || is_space c.
Proof.
  induction tok as [|d tok IH]; simpl.
  - apply orb_false_r.
  - rewrite IH. apply orb_assoc.
Qed.

Lemma split_from_no_space s : forall tok,
  has_space tok = false ->
  Forall (fun word => has_space word = false) (split_from s tok).
Proof.
  induction s as [|c s IH]; intros tok Htok; simpl.
  - destruct (String.eqb tok ""); auto.
  - destruct (is_space c) eqn:Ec.
    + destruct (String.eqb tok ""); [|constructor; [assumption|]];
        apply IH; reflexivity.
    + apply IH. rewrite has_space_snoc, Htok, Ec. reflexivity.
Qed.

Lemma split_no_space s :
  Forall (fun word => has_space word = false) (split s).
Proof. apply split_from_no_space. reflexivity. Qed.

Lemma split_from_nonempty s : forall tok,
  Forall (fun word => word <> "") (split_from s tok).
Proof.
  induction s as [|c s IH]; intros tok; simpl.
  - destruct (String.eqb tok "") eqn:E; auto.
    constructor; [|constructor]. apply String.eqb_neq, E.
  - destruct (is_space c).
    + destruct (String.eqb tok "") eqn:E; [apply IH|].
      constructor; [apply String.eqb_neq, E | apply IH].
    + apply IH.
Qed.

Lemma sum_of_ones {A} (l : list A) acc :
  fold_left Z.add (map (fun _ => 1%Z) l) acc = (acc + Z.of_nat (length l))%Z.
Proof.
  revert acc. induction l as [|a l IH]; intros acc; simpl length; simpl map.
  - simpl. lia.
  - simpl fold_left. rewrite IH. lia.
Qed.

Lemma filler_count_length words :
  filler_count words = Z.of_nat (length (List.filter is_filler words)).
Proof. unfold filler_count. rewrite sum_of_ones. lia. Qed.

Lemma is_filler_iff word : is_filler word = true <-> In word fillers.
Proof.
  unfold is_filler. rewrite existsb_exists. split.
  - intros [w [Hin Heq]]. apply String.eqb_eq in Heq. subst. exact Hin.
  - intros Hin. exists word. split; [exact Hin | apply String.eqb_refl].
Qed.

Lemma is_filler_one_word word :
  has_space word = false ->
  is_filler word = existsb (String.eqb word) one_word_fillers.
Proof.
  intros Hns. unfold is_filler, fillers, one_word_fillers. simpl.
  destruct (String.eqb word "you know") eqn:E.
  - apply String.eqb_eq in E. subst. discriminate.
  - reflexivity.
Qed.

(** C9. The filler count of [analyze_confidence] is the number of tokens of
    the lower-cased, whitespace-split text that are in the filler list; no
    token contains whitespace, so "you know" is never a token and the count
    is the same as with the six one-word fillers only. *)
Theorem filler_count_tokens (text : string) :
  let words := split (lower text) in
  filler_count words
  = Z.of_nat (length (List.filter (fun word => bool_decide (In word fillers))
                                  words))
  /\ Forall (fun word => has_space word = false) words
  /\ ~ In "you know" words
  /\ filler_count words
     = Z.of_nat (length (List.filter (fun word =>
                                   bool_decide (In word one_word_fillers))
                                words)).
Proof.
  intros words.
  assert (Hns : Forall (fun word => has_space word = false) words)
    by apply split_no_space.
  repeat split.
  - rewrite filler_count_length. f_equal. f_equal.
    apply filter_ext. intros word.
    destruct (is_filler word) eqn:E.
    + symmetry. apply bool_decide_eq_true, is_filler_iff, E.
    + symmetry. apply bool_decide_eq_false. rewrite <- is_filler_iff, E.
      discriminate.
  - exact Hns.
  - intros Hin. rewrite List.Forall_forall in Hns. apply Hns in Hin.
    discriminate.
  - rewrite filler_count_length. f_equal. f_equal.
    apply filter_ext_in. intros word Hin.
    rewrite List.Forall_forall in Hns.
    rewrite (is_filler_one_word word (Hns _ Hin)).
    destruct (existsb (String.eqb word) one_word_fillers) eqn:E.
    + symmetry. apply bool_decide_eq_true. apply existsb_exists in E.
      destruct E as [w [Hw Heq]]. apply String.eqb_eq in Heq. subst. exact Hw.
    + symmetry. apply bool_decide_eq_false. intros Hw.
      assert (existsb (String.eqb word) one_word_fillers = true).
      { apply existsb_exists. exists word. split; [exact Hw|].
        apply String.eqb_refl. }
      congruence.
Qed.

(** ** The score composer *)




(** ** The orchestrator *)

Lemma load_event_not_analysis ev :
  is_load_event ev = true -> is_analysis_event ev = false.
Proof. destruct ev; simpl; congruence. Qed.

Lemma load_audio_trace L path :
  Forall (fun ev => is_load_event ev = true) (trace (load_audio L path)).
Proof.
  unfold load_audio, call.
  destruct (from_file L path) as [seg|e]; simpl; [|repeat constructor].
  destruct (set_channels L seg 1) as [seg1|e]; simpl; [|repeat constructor].
  destruct (set_frame_rate L seg1 16000) as [seg2|e]; simpl;
    [|repeat constructor].
  destruct (export L seg2 "wav") as [buf|e]; simpl; [|repeat constructor].
  destruct (librosa_load L buf 16000) as [l|e]; simpl; repeat constructor.
Qed.

Lemma run_after_load L path y sr :
  outcome (load_audio L path) = Ok (y, sr) ->
  run_full_analysis L path
  = (EPrint ("Processing file: " +:+ path +:+ "...")
       :: trace (load_audio L path) ++ trace (after_load L y sr),
     outcome (after_load L y sr)).
Proof.
  intros Hload. unfold run_full_analysis.
  destruct (load_audio L path) as [t r]. simpl in Hload. subst r. simpl.
  rewrite app_nil_r. destruct (after_load L y sr). reflexivity.
Qed.

Lemma run_load_failure L path e :
  outcome (load_audio L path) = Raise e ->
  run_full_analysis L path
  = (EPrint ("Processing file: " +:+ path +:+ "...")
       :: trace (load_audio L path),
     Ok (error_report e)).
Proof.
  intros Hload. unfold run_full_analysis.
  destruct (load_audio L path) as [t r]. simpl in Hload. subst r. simpl.
  rewrite !app_nil_r. reflexivity.
Qed.

(** C2. When the audio loads and its peak absolute amplitude is below 0.001,
    whatever its length, [run_full_analysis] returns the fixed silence
    report, and the only library calls it makes are those of the loading
    stage: neither whisper nor any extractor is called. *)
Theorem silent_audio_report (L : Lib) (path : string) (y : list Q) (sr : Z)
    (peak : Q) :
  outcome (load_audio L path) = Ok (y, sr) ->
  np_max (np_abs y) = Ok peak ->
  peak < 1 # 1000 ->
  outcome (run_full_analysis L path) = Ok silent_report
  /\ silent_report
     = {[ "Clarity Score" := VNum 0;
          "Confidence Score" := VNum 0;
          "Energy & Engagement Score" := VNum 0;
          "Professionalism Score" := VNum 0;
          "Mood Analysis" := VStr "Not Implemented";
          "Transcription" := VStr "Audio is silent or contains no speech." ]}
  /\ trace (run_full_analysis L path)
     = EPrint ("Processing file: " +:+ path +:+ "...")
         :: trace (load_audio L path)
  /\ Forall (fun ev => is_analysis_event ev = false)
            (trace (run_full_analysis L path)).
Proof.
  intros Hload Hpeak Hsilent.
  assert (Hafter : after_load L y sr = ([], Ok silent_report)).
  { unfold after_load, lift. rewrite Hpeak. simpl.
    apply Qlt_bool_iff in Hsilent. rewrite Hsilent. reflexivity. }
  rewrite (run_after_load L path y sr Hload), Hafter. simpl.
  rewrite app_nil_r.
  split; [reflexivity|]. split; [reflexivity|]. split; [reflexivity|].
  constructor; [reflexivity|].
  eapply List.Forall_impl; [|apply load_audio_trace].
  intros ev. apply load_event_not_analysis.
Qed.

Lemma silent_audio_report_witness :
  outcome (run_full_analysis demo_lib "silence.wav") = Ok silent_report.
Proof.
  apply (silent_audio_report demo_lib "silence.wav" [0; 1 # 2000; 0] 16000
           (1 # 2000)); reflexivity.
Defined.

(** C3. When the loading stage raises [e], [run_full_analysis] returns the
    mapping whose only key is "error", bound to "Could not load audio file: "
    followed by [str(e)]; the only library calls made are those of the
    loading stage up to the failure. *)
Theorem load_failure_report (L : Lib) (path : string) (e : exn) :
  outcome (load_audio L path) = Raise e ->
  outcome (run_full_analysis L path)
  = Ok {[ "error" := VStr ("Could not load audio file: " +:+ exn_str e) ]}
  /\ dom (error_report e) = {[ "error" ]}
  /\ trace (run_full_analysis L path)
     = EPrint ("Processing file: " +:+ path +:+ "...")
         :: trace (load_audio L path)
  /\ Forall (fun ev => is_analysis_event ev = false)
            (trace (run_full_analysis L path)).
Proof.
  intros Hload. rewrite (run_load_failure L path e Hload). simpl.
  split; [reflexivity|].
  split; [unfold error_report; apply dom_singleton_L|].
  split; [reflexivity|].
  constructor; [reflexivity|].
  eapply List.Forall_impl; [|apply load_audio_trace].
  intros ev. apply load_event_not_analysis.
Qed.

Lemma load_failure_report_witness :
  outcome (run_full_analysis demo_lib "notes.txt")
  = Ok {[ "error" :=
            VStr ("Could not load audio file: " +:+
                  "Decoding failed. ffmpeg returned error code: 1") ]}.
Proof.
  apply (load_failure_report demo_lib "notes.txt"
           (mkExn LibraryError
              "Decoding failed. ffmpeg returned error code: 1")).
  reflexivity.
Defined.

Lemma mood_status :
  getitem placeholder_mood_analysis "Status" = Ok "Not Implemented".
Proof. reflexivity. Qed.

Lemma professionalism_of_scores clarity confidence :
  placeholder_professionalism_score (VNum clarity) (VNum confidence)
  = Ok (VNum ((clarity + confidence) / 2)).
Proof. reflexivity. Qed.

Ltac bind_step H :=
  rewrite outcome_bind in H;
  match type of H with
  | match ?o with _ => _ end = _ =>
      let E := fresh "E" in
      destruct o eqn:E; [|discriminate H]
  end.

Lemma analyze_speech_report L y sr report :
  outcome (analyze_speech L y sr) = Ok report ->
  exists text clarity confidence engagement,
    outcome (analyze_clarity L y sr) = Ok clarity
    /\ outcome (analyze_confidence L y sr text) = Ok confidence
    /\ outcome (analyze_energy_engagement L y sr) = Ok engagement
    /\ report
       = {[ "Clarity Score" := VNum clarity;
            "Confidence Score" := VNum confidence;
            "Energy & Engagement Score" := VNum engagement;
            "Professionalism Score" := VNum ((clarity + confidence) / 2);
            "Mood Analysis" := VStr "Not Implemented";
            "Transcription" := VStr text ]}.
Proof.
  unfold analyze_speech. intros H.
  bind_step H. bind_step H. bind_step H. bind_step H.
  bind_step H. bind_step H. bind_step H.
  rewrite outcome_bind, outcome_lift, professionalism_of_scores in H.
  rewrite outcome_bind, outcome_lift, mood_status in H.
  simpl in H. injection H as <-.
  eauto 10.
Qed.

Lemma after_load_cases L y sr report :
  outcome (after_load L y sr) = Ok report ->
  exists peak,
    np_max (np_abs y) = Ok peak
    /\ ((peak < 1 # 1000 /\ report = silent_report)
        \/ (1 # 1000 <= peak /\ outcome (analyze_speech L y sr) = Ok report)).
Proof.
  unfold after_load. intros H. bind_step H. rewrite outcome_lift in E.
  exists a. split; [exact E|].
  destruct (Qlt_bool a (1 # 1000)) eqn:Hp.
  - left. split; [apply Qlt_bool_iff, Hp|]. injection H as <-. reflexivity.
  - right. split; [apply Qlt_bool_false, Hp | exact H].
Qed.

Lemma run_full_analysis_cases L path report :
  outcome (run_full_analysis L path) = Ok report ->
  (exists e, outcome (load_audio L path) = Raise e /\ report = error_report e)
  \/ (exists y sr,
        outcome (load_audio L path) = Ok (y, sr)
        /\ outcome (after_load L y sr) = Ok report).
Proof.
  intros H. destruct (outcome (load_audio L path)) as [[y sr]|e] eqn:Hload.
  - right. exists y, sr. split; [reflexivity|].
    rewrite (run_after_load L path y sr Hload) in H. exact H.
  - left. exists e. split; [reflexivity|].
    rewrite (run_load_failure L path e Hload) in H.
    injection H as <-. reflexivity.
Qed.

Lemma error_report_has_error e : error_report e !! "error" <> None.
Proof. unfold error_report. rewrite lookup_singleton_eq. discriminate. Qed.

Lemma silent_report_scores key q :
  In key score_keys -> silent_report !! key = Some (VNum q) -> in_range q.
Proof.
  intros Hkey Hq.
  assert (Hz : q = 0).
  { simpl in Hkey. destruct Hkey as [<-|[<-|[<-|[<-|[]]]]];
      vm_compute in Hq; injection Hq as <-; reflexivity. }
  subst q. apply in_range_zero.
Qed.

(** C4. In every result of [run_full_analysis] that is not the error
    mapping, each of the four score fields that holds a number holds one in
    [0, 10]. *)
Theorem report_scores_in_range (L : Lib) (path : string)
    (report : gmap string pyval) (key : string) (q : Q) :
  outcome (run_full_analysis L path) = Ok report ->
  report !! "error" = None ->
  In key score_keys ->
  report !! key = Some (VNum q) ->
  0 <= q <= 10.
Proof.
  intros Hrun Hok Hkey Hq. change (in_range q).
  destruct (run_full_analysis_cases L path report Hrun)
    as [(e & _ & ->)|(y & sr & _ & Hafter)].
  { exfalso. exact (error_report_has_error e Hok). }
  destruct (after_load_cases L y sr report Hafter)
    as (peak & _ & [[_ ->]|[_ Hspeech]]).
  { exact (silent_report_scores key q Hkey Hq). }
  destruct (analyze_speech_report L y sr report Hspeech)
    as (text & clarity & confidence & engagement & Hc & Hf & Hg & ->).
  apply analyze_clarity_in_range in Hc.
  apply analyze_confidence_in_range in Hf.
  apply analyze_energy_engagement_in_range in Hg.
  assert (Hp : in_range ((clarity + confidence) / 2)) by auto with scores.
  revert Hp Hq. generalize ((clarity + confidence) / 2). intros p Hp Hq.
  simpl in Hkey. destruct Hkey as [<-|[<-|[<-|[<-|[]]]]];
    vm_compute in Hq; injection Hq as <-; assumption.
Qed.

Lemma report_scores_in_range_witness :
  outcome (run_full_analysis demo_lib "speech.wav") = Ok demo_report
  /\ demo_report !! "Energy & Engagement Score" = Some (VNum (13200 # 1600))
  /\ 0 <= 13200 # 1600 <= 10.
Proof.
  assert (Hrun : outcome (run_full_analysis demo_lib "speech.wav")
                 = Ok demo_report) by (vm_compute; reflexivity).
  split; [exact Hrun|]. split; [reflexivity|].
  apply (report_scores_in_range demo_lib "speech.wav" demo_report
           "Energy & Engagement Score" (13200 # 1600)).
  - exact Hrun.
  - reflexivity.
  - simpl. auto.
  - reflexivity.
Defined.

(** C10. In a result of [run_full_analysis] that is not the error mapping,
    "Professionalism Score" is always a number, never the string
    "Not Calculated"; when the audio is not silent, both [analyze_clarity]
    and [analyze_confidence] returned numbers, the composer took its numeric
    branch, and the field is their mean. *)
Theorem professionalism_always_numeric (L : Lib) (path : string)
    (report : gmap string pyval) :
  outcome (run_full_analysis L path) = Ok report ->
  report !! "error" = None ->
  (exists q, report !! "Professionalism Score" = Some (VNum q))
  /\ report !! "Professionalism Score" <> Some (VStr "Not Calculated")
  /\ (forall y sr peak,
        outcome (load_audio L path) = Ok (y, sr) ->
        np_max (np_abs y) = Ok peak ->
        1 # 1000 <= peak ->
        exists text clarity confidence,
          outcome (analyze_clarity L y sr) = Ok clarity
          /\ outcome (analyze_confidence L y sr text) = Ok confidence
          /\ placeholder_professionalism_score (VNum clarity) (VNum confidence)
             = Ok (VNum ((clarity + confidence) / 2))
          /\ report !! "Clarity Score" = Some (VNum clarity)
          /\ report !! "Confidence Score" = Some (VNum confidence)
          /\ report !! "Professionalism Score"
             = Some (VNum ((clarity + confidence) / 2))).
Proof.
  intros Hrun Hok.
  destruct (run_full_analysis_cases L path report Hrun)
    as [(e & _ & ->)|(y & sr & Hload & Hafter)].
  { exfalso. exact (error_report_has_error e Hok). }
  destruct (after_load_cases L y sr report Hafter)
    as (peak & Hpeak & [[Hlow ->]|[Hhigh Hspeech]]).
  - split; [exists 0; reflexivity|]. split; [discriminate|].
    intros y' sr' peak' Hload' Hpeak' Hhigh'.
    rewrite Hload in Hload'. injection Hload' as <- <-.
    rewrite Hpeak in Hpeak'. injection Hpeak' as <-. lra.
  - destruct (analyze_speech_report L y sr report Hspeech)
      as (text & clarity & confidence & engagement & Hc & Hf & Hg & ->).
    assert (Hfield :
      ({[ "Clarity Score" := VNum clarity;
          "Confidence Score" := VNum confidence;
          "Energy & Engagement Score" := VNum engagement;
          "Professionalism Score" := VNum ((clarity + confidence) / 2);
          "Mood Analysis" := VStr "Not Implemented";
          "Transcription" := VStr text ]} : gmap string pyval)
        !! "Professionalism Score"
      = Some (VNum ((clarity + confidence) / 2))).
    { generalize ((clarity + confidence) / 2). intros p. reflexivity. }
    split; [eexists; exact Hfield|].
    split; [rewrite Hfield; discriminate|].
    intros y' sr' peak' Hload' _ _.
    rewrite Hload in Hload'. injection Hload' as <- <-.
    exists text, clarity, confidence.
    split; [exact Hc|]. split; [exact Hf|].
    split; [apply professionalism_of_scores|].
    split; [reflexivity|]. split; [reflexivity|]. exact Hfield.
Qed.

Lemma professionalism_always_numeric_witness :
  exists q, demo_report !! "Professionalism Score" = Some (VNum q).
Proof.
  apply (professionalism_always_numeric demo_lib "speech.wav" demo_report).
  - vm_compute. reflexivity.
  - reflexivity.
Defined.

(** * Further properties of the analysis module *)

(** ** The normalizer, beyond its contract *)






(** ** NumPy reductions *)

Lemma max_fold_spec l : forall x,
  let m := fold_left (fun acc z => if Qlt_bool acc z then z else acc) l x in
  In m (x :: l) /\ x <= m /\ Forall (fun z => z <= m) l.
Proof.
  induction l as [|z l IH]; intros x; simpl.
  - repeat split; [auto | lra | constructor].
  - destruct (Qlt_bool x z) eqn:E.
    + apply Qlt_bool_iff in E. destruct (IH z) as (Hin & Hle & Hall).
      repeat split; [right; exact Hin | lra | constructor; assumption].
    + apply Qlt_bool_false in E. destruct (IH x) as (Hin & Hle & Hall).
      repeat split; [|exact Hle | constructor; [lra | exact Hall]].
      destruct Hin as [Hin|Hin]; [left; exact Hin | right; right; exact Hin].
Qed.

Lemma min_fold_spec l : forall x,
  let m := fold_left (fun acc z => if Qlt_bool z acc then z else acc) l x in
  In m (x :: l) /\ m <= x /\ Forall (fun z => m <= z) l.
Proof.
  induction l as [|z l IH]; intros x; simpl.
  - repeat split; [auto | lra | constructor].
  - destruct (Qlt_bool z x) eqn:E.
    + apply Qlt_bool_iff in E. destruct (IH z) as (Hin & Hle & Hall).
      repeat split; [right; exact Hin | lra | constructor; assumption].
    + apply Qlt_bool_false in E. destruct (IH x) as (Hin & Hle & Hall).
      repeat split; [|exact Hle | constructor; [lra | exact Hall]].
      destruct Hin as [Hin|Hin]; [left; exact Hin | right; right; exact Hin].
Qed.

Lemma np_max_spec l m :
  np_max l = Ok m -> In m l /\ Forall (fun z => z <= m) l.
Proof.
  destruct l as [|x l]; [discriminate|]. intros [= <-].
  destruct (max_fold_spec l x) as (Hin & Hle & Hall).
  split; [exact Hin | constructor; assumption].
Qed.

Lemma np_min_spec l m :
  np_min l = Ok m -> In m l /\ Forall (fun z => m <= z) l.
Proof.
  destruct l as [|x l]; [discriminate|]. intros [= <-].
  destruct (min_fold_spec l x) as (Hin & Hle & Hall).
  split; [exact Hin | constructor; assumption].
Qed.

(** [np.ptp] of a non-empty array is the difference between a largest
    and a smallest element of the array, hence not negative; on an empty
    array it raises [ValueError]. *)
Theorem np_ptp_spec (l : list Q) :
  (l = [] -> exists e, np_ptp l = Raise e /\ exn_cls e = ValueError)
  /\ (l <> [] ->
      exists hi lo,
        np_ptp l = Ok (hi - lo)
        /\ In hi l /\ In lo l
        /\ Forall (fun z => lo <= z <= hi) l
        /\ 0 <= hi - lo).
Proof.
  split.
  - intros ->. eexists. split; reflexivity.
  - intros Hne. destruct l as [|x l]; [contradiction|].
    destruct (np_max (x :: l)) as [hi|e] eqn:Ehi; [|discriminate].
    destruct (np_min (x :: l)) as [lo|e] eqn:Elo; [|discriminate].
    destruct (np_max_spec _ _ Ehi) as [Hhi Hup].
    destruct (np_min_spec _ _ Elo) as [Hlo Hdown].
    exists hi, lo. unfold np_ptp. rewrite Ehi, Elo.
    split; [reflexivity|]. split; [exact Hhi|]. split; [exact Hlo|].
    assert (Hboth : Forall (fun z => lo <= z <= hi) (x :: l)).
    { rewrite List.Forall_forall in *. intros z Hz. split; auto. }
    split; [exact Hboth|].
    rewrite List.Forall_forall in Hboth. specialize (Hboth hi Hhi). lra.
Qed.

Lemma np_ptp_spec_witness :
  exists hi lo, np_ptp [120; 131; 300] = Ok (hi - lo) /\ In hi [120; 131; 300]
                /\ In lo [120; 131; 300]
                /\ Forall (fun z => lo <= z <= hi) [120; 131; 300]
                /\ 0 <= hi - lo.
Proof.
  apply (np_ptp_spec [120; 131; 300]). discriminate.
Defined.

(** ** Pitch contour *)

Lemma argmax_from_spec l : forall pre besti best,
  nth_error pre besti = Some best ->
  List.Forall (fun z => z <= best) pre ->
  (forall j z, (j < besti)%nat -> nth_error pre j = Some z -> z < best) ->
  exists m,
    nth_error (pre ++ l) (argmax_from l (length pre) besti best) = Some m
    /\ List.Forall (fun z => z <= m) (pre ++ l)
    /\ (forall j z, (j < argmax_from l (length pre) besti best)%nat ->
                    nth_error (pre ++ l) j = Some z -> z < m).
Proof.
  induction l as [|x l IH]; intros pre besti best Hbest Hall Hfirst; simpl.
  - rewrite app_nil_r. exists best. auto.
  - assert (Hlt : (besti < length pre)%nat)
      by (apply nth_error_Some; rewrite Hbest; discriminate).
    replace (pre ++ x :: l) with ((pre ++ [x]) ++ l)
      by (rewrite <- app_assoc; reflexivity).
    replace (S (length pre)) with (length (pre ++ [x]))
      by (rewrite length_app; simpl; lia).
    destruct (Qlt_bool best x) eqn:E.
    + apply Qlt_bool_iff in E. apply IH.
      * rewrite nth_error_app2 by lia. rewrite Nat.sub_diag. reflexivity.
      * apply List.Forall_app. split; [|constructor; [lra|constructor]].
        eapply List.Forall_impl; [|exact Hall]. simpl. intros z Hz. lra.
      * intros j z Hj Hz. rewrite nth_error_app1 in Hz by exact Hj.
        rewrite List.Forall_forall in Hall.
        apply nth_error_In in Hz. apply Hall in Hz. lra.
    + apply Qlt_bool_false in E. apply IH.
      * rewrite nth_error_app1 by exact Hlt. exact Hbest.
      * apply List.Forall_app. split; [exact Hall|].
        constructor; [exact E|constructor].
      * intros j z Hj Hz. rewrite nth_error_app1 in Hz by lia.
        exact (Hfirst j z Hj Hz).
Qed.

(** [argmax] raises [ValueError] on an empty sequence; otherwise it
    returns the index of a largest element, and the first such index: every
    element is at most the one selected and every earlier element is
    strictly smaller. *)
Theorem argmax_first_maximum (l : list Q) :
  (l = [] -> exists e, argmax l = Raise e /\ exn_cls e = ValueError)
  /\ (l <> [] ->
      exists i m,
        argmax l = Ok i
        /\ nth_error l i = Some m
        /\ List.Forall (fun z => z <= m) l
        /\ (forall j z, (j < i)%nat -> nth_error l j = Some z -> z < m)).
Proof.
  split.
  - intros ->. eexists. split; reflexivity.
  - intros Hne. destruct l as [|x l]; [contradiction|].
    destruct (argmax_from_spec l [x] 0%nat x) as (m & Hm & Hall & Hfirst).
    + reflexivity.
    + constructor; [lra|constructor].
    + intros j z Hj. lia.
    + exists (argmax_from l 1 0 x), m. auto.
Qed.

Lemma argmax_first_maximum_witness :
  exists i m,
    argmax [1 # 10; 9 # 10; 9 # 10] = Ok i
    /\ nth_error [1 # 10; 9 # 10; 9 # 10] i = Some m
    /\ List.Forall (fun z => z <= m) [1 # 10; 9 # 10; 9 # 10]
    /\ (forall j z, (j < i)%nat ->
                    nth_error [1 # 10; 9 # 10; 9 # 10] j = Some z -> z < m).
Proof.
  apply (argmax_first_maximum [1 # 10; 9 # 10; 9 # 10]). discriminate.
Defined.

Lemma argmax_bound l i : argmax l = Ok i -> (i < length l)%nat.
Proof.
  destruct l as [|x l]; [discriminate|]. intros [= <-].
  destruct (argmax_from_spec l [x] 0%nat x) as (m & Hm & _).
  - reflexivity.
  - constructor; [lra|constructor].
  - intros j z Hj. lia.
  - apply nth_error_Some. simpl in Hm. simpl. rewrite Hm. discriminate.
Qed.

Lemma column_of_ok rows t width :
  List.Forall (fun row => length row = width) rows -> (t < width)%nat ->
  exists col, column_of rows t = Ok col /\ length col = length rows.
Proof.
  intros Hrows Ht. induction Hrows as [|row rows Hrow _ IH]; simpl.
  - exists []. auto.
  - unfold nth_or_raise. destruct (nth_error row t) as [x|] eqn:Ex.
    + destruct IH as (col & -> & Hlen). simpl. exists (x :: col).
      simpl. auto.
    + apply nth_error_None in Ex. lia.
Qed.

Lemma pitch_at_ok pitches magnitudes t :
  well_formed pitches -> well_formed magnitudes ->
  same_shape pitches magnitudes -> (0 < shape0 pitches)%nat ->
  (t < shape1 pitches)%nat ->
  exists v, pitch_at pitches magnitudes t = Ok v.
Proof.
  intros Hp Hm [Hrows Hcols] Hpos Ht. unfold pitch_at, column.
  assert (Ht' : (t <? shape1 magnitudes)%nat = true)
    by (apply Nat.ltb_lt; lia).
  rewrite Ht'.
  destruct (column_of_ok (mat_rows magnitudes) t (mat_ncols magnitudes) Hm)
    as (col & -> & Hlen); [unfold shape1 in *; lia|].
  simpl. destruct (argmax col) as [i|e] eqn:Ei.
  - simpl. apply argmax_bound in Ei. unfold getitem2.
    assert (Ht2 : (t <? shape1 pitches)%nat = true) by (apply Nat.ltb_lt; lia).
    rewrite Ht2. unfold nth_or_raise, shape0 in *.
    destruct (nth_error (mat_rows pitches) i) as [row|] eqn:Erow.
    + simpl. destruct (nth_error row t) as [v|] eqn:Ev; [eauto|].
      apply nth_error_None in Ev. apply nth_error_In in Erow.
      unfold well_formed in Hp. rewrite List.Forall_forall in Hp.
      apply Hp in Erow. unfold shape1 in *. lia.
    + apply nth_error_None in Erow. lia.
  - destruct col; [simpl in Hlen; unfold shape0 in *; lia | discriminate].
Qed.

Lemma voiced_pitches_ok pitches magnitudes ts :
  (forall t, In t ts -> exists v, pitch_at pitches magnitudes t = Ok v) ->
  exists vs, voiced_pitches pitches magnitudes ts = Ok vs.
Proof.
  induction ts as [|t ts IH]; intros Hall; simpl; [eauto|].
  destruct (Hall t) as [v Hv]; [left; reflexivity|]. rewrite Hv. simpl.
  destruct IH as [vs Hvs]; [intros t' Ht'; apply Hall; right; exact Ht'|].
  destruct (Qlt_bool 0 v); [|eauto]. rewrite Hvs. simpl. eauto.
Qed.

Lemma voiced_pitches_length pitches magnitudes ts vs :
  voiced_pitches pitches magnitudes ts = Ok vs ->
  (length vs <= length ts)%nat.
Proof.
  revert vs. induction ts as [|t ts IH]; simpl; intros vs.
  - intros [= <-]. simpl. lia.
  - destruct (pitch_at pitches magnitudes t) as [c|e]; simpl; [|discriminate].
    destruct (Qlt_bool 0 c).
    + simpl. destruct (voiced_pitches pitches magnitudes ts) as [ws|e]; simpl;
        [|discriminate].
      intros [= <-]. specialize (IH ws eq_refl). simpl. lia.
    + intros H. specialize (IH vs H). lia.
Qed.

(** X3. The pitch contour of [analyze_clarity].  Whenever the list
    comprehension returns, every pitch it kept is positive and it kept at
    most one pitch per frame.  When the two arrays of the pitch track have
    the same shape, with at least one frequency bin and rows of the declared
    width, the comprehension does not raise. *)
Theorem pitch_contour (pitches magnitudes : matrix) :
  (forall pitch_values,
     voiced_pitches pitches magnitudes (seq 0 (shape1 pitches))
     = Ok pitch_values ->
     List.Forall (fun v => 0 < v) pitch_values
     /\ (length pitch_values <= shape1 pitches)%nat)
  /\ (well_formed pitches -> well_formed magnitudes ->
      same_shape pitches magnitudes -> (0 < shape0 pitches)%nat ->
      exists pitch_values,
        voiced_pitches pitches magnitudes (seq 0 (shape1 pitches))
        = Ok pitch_values).
Proof.
  split.
  - intros vs Hvs. split; [exact (voiced_pitches_positive _ _ _ _ Hvs)|].
    apply voiced_pitches_length in Hvs. rewrite length_seq in Hvs. exact Hvs.
  - intros Hp Hm Hshape Hpos. apply voiced_pitches_ok.
    intros t Ht. apply in_seq in Ht.
    apply pitch_at_ok; try assumption. lia.
Qed.

Lemma pitch_contour_witness :
  exists pitch_values,
    voiced_pitches demo_pitches demo_magnitudes (seq 0 (shape1 demo_pitches))
    = Ok pitch_values.
Proof.
  apply (pitch_contour demo_pitches demo_magnitudes).
  - repeat constructor.
  - repeat constructor.
  - split; reflexivity.
  - unfold shape0. simpl. lia.
Defined.

(** ** Tokenization *)

Lemma append_assoc (a b c : string) : (a +:+ b) +:+ c = a +:+ (b +:+ c).
Proof.
  induction a as [|x a IH]; [reflexivity|].
  change (String x ((a +:+ b) +:+ c) = String x (a +:+ (b +:+ c))).
  rewrite IH. reflexivity.
Qed.

Lemma append_empty_r (a : string) : a +:+ "" = a.
Proof.
  induction a as [|x a IH]; [reflexivity|].
  change (String x (a +:+ "") = String x a). rewrite IH. reflexivity.
Qed.

Lemma split_from_word word : forall rest tok,
  has_space word = false ->
  split_from (word +:+ rest) tok = split_from rest (tok +:+ word).
Proof.
  induction word as [|c word IH]; intros rest tok Hns; simpl.
  - rewrite append_empty_r. reflexivity.
  - simpl in Hns. apply orb_false_iff in Hns. destruct Hns as [Hc Hword].
    rewrite Hc, (IH rest _ Hword), append_assoc. reflexivity.
Qed.

Lemma split_join words :
  List.Forall is_token words -> split (join_spaces words) = words.
Proof.
  unfold split. induction 1 as [|word words [Hne Hns] Hrest IH];
    [reflexivity|].
  apply String.eqb_neq in Hne.
  destruct words as [|next words].
  - simpl. rewrite <- (append_empty_r word) at 1.
    rewrite (split_from_word word "" "" Hns).
    change (split_from "" ("" +:+ word))
      with (if String.eqb word "" then [] else [word]).
    rewrite Hne. reflexivity.
  - change (join_spaces (word :: next :: words))
      with (word +:+ " " +:+ join_spaces (next :: words)).
    rewrite (split_from_word word _ "" Hns).
    change (split_from (" " +:+ join_spaces (next :: words)) ("" +:+ word))
      with (if String.eqb word ""
            then split_from (join_spaces (next :: words)) ""
            else word :: split_from (join_spaces (next :: words)) "").
    rewrite Hne, IH. reflexivity.
Qed.

(** X5. [split] yields tokens only, each non-empty and free of whitespace,
    and it undoes joining such tokens with single spaces. *)
Theorem split_tokens (text : string) (words : list string) :
  List.Forall is_token (split text)
  /\ (List.Forall is_token words -> split (join_spaces words) = words).
Proof.
  split; [|apply split_join].
  pose proof (split_from_nonempty text "") as Hne.
  pose proof (split_no_space text) as Hns. unfold split in *.
  rewrite List.Forall_forall in *. intros word Hin.
  split; [apply Hne | apply Hns]; exact Hin.
Qed.

Lemma split_tokens_witness :
  split (join_spaces ["um"; "so"; "hello"]) = ["um"; "so"; "hello"].
Proof.
  apply (split_tokens "" ["um"; "so"; "hello"]).
  repeat constructor; discriminate.
Defined.

Lemma is_space_lower_char c : is_space (lower_char c) = is_space c.
Proof. destruct c as [[] [] [] [] [] [] [] []]; reflexivity. Qed.

Lemma lower_char_idempotent c : lower_char (lower_char c) = lower_char c.
Proof. destruct c as [[] [] [] [] [] [] [] []]; reflexivity. Qed.

Lemma lower_append a b : lower (a +:+ b) = lower a +:+ lower b.
Proof.
  induction a as [|x a IH]; [reflexivity|].
  change (String (lower_char x) (lower (a +:+ b))
          = String (lower_char x) (lower a +:+ lower b)).
  rewrite IH. reflexivity.
Qed.

Lemma lower_is_empty tok : String.eqb (lower tok) "" = String.eqb tok "".
Proof. destruct tok; reflexivity. Qed.

Lemma split_from_lower text : forall tok,
  split_from (lower text) (lower tok) = map lower (split_from text tok).
Proof.
  induction text as [|c text IH]; intros tok; simpl.
  - rewrite lower_is_empty. destruct (String.eqb tok ""); reflexivity.
  - rewrite is_space_lower_char, lower_is_empty.
    destruct (is_space c).
    + destruct (String.eqb tok ""); simpl; [apply (IH "")|].
      f_equal. apply (IH "").
    + rewrite <- IH, lower_append. reflexivity.
Qed.

Lemma lower_idempotent text : lower (lower text) = lower text.
Proof.
  induction text as [|c text IH]; simpl; [reflexivity|].
  rewrite lower_char_idempotent, IH. reflexivity.
Qed.

(** Lower-casing is idempotent and commutes with tokenization: the
    tokens of the lower-cased text are the lower-cased tokens of the text,
    so the words are the same whether the text is split before or after
    lower-casing and fillers are matched whatever their case. *)
Theorem lower_split_commute (text : string) :
  split (lower text) = map lower (split text)
  /\ lower (lower text) = lower text
  /\ filler_count (split (lower text))
     = filler_count (map lower (split text)).
Proof.
  assert (Hsplit : split (lower text) = map lower (split text))
    by apply (split_from_lower text "").
  split; [exact Hsplit|]. split; [apply lower_idempotent|].
  rewrite Hsplit. reflexivity.
Qed.

(** ** The lexical half of the confidence score *)

Lemma Qlen_pos {A} (a : A) (l : list A) : 0 < Qlen (a :: l).
Proof.
  unfold Qlen. change 0 with (inject_Z 0). rewrite <- Zlt_Qlt.
  simpl length. lia.
Qed.

Lemma filler_count_nonneg words : 0 <= inject_Z (filler_count words).
Proof.
  rewrite filler_count_length. change 0 with (inject_Z 0).
  rewrite <- Zle_Qle. lia.
Qed.

Lemma reversed_score_inside v : 0 <= v <= 10 -> score_of v 0 10 true == 10 - v.
Proof.
  intros Hv. unfold score_of. rewrite (clamp_inside v 0 10 Hv). field.
Qed.

Lemma per_hundred_bounds c n :
  0 <= c -> 0 < n ->
  0 <= c / (n / 100)
  /\ (10 * c <= n -> c / (n / 100) <= 10)
  /\ (n <= 10 * c -> 10 <= c / (n / 100))
  /\ c / (n / 100) == 100 * c / n.
Proof.
  intros Hc Hn.
  assert (Hm : n == 100 * (n / 100)) by (field; discriminate).
  assert (Hpos : 0 < n / 100) by lra.
  split; [apply Qle_shift_div_l; lra|].
  split; [intros H; apply Qle_shift_div_r; lra|].
  split; [intros H; apply Qle_shift_div_l; lra|].
  field. lra.
Qed.

Lemma confidence_body_with_words L y sr text v word words :
  outcome (volume_stability L y) = Ok v ->
  split (lower text) = word :: words ->
  analyze_confidence_body L y sr text
  = (trace (volume_stability L y),
     Ok ((v + score_of (inject_Z (filler_count (word :: words))
                        / (Qlen (word :: words) / 100)) 0 10 true) / 2)).
Proof.
  intros Hv Hwords. unfold analyze_confidence_body. rewrite Hwords.
  destruct (volume_stability L y) as [t r]. simpl in Hv. subst r.
  change (truthy (word :: words)) with true. cbv iota. simpl negb. cbv iota.
  pose proof (Qlen_pos word words) as Hn.
  unfold mbind, M_bind, bind, lift, ret.
  rewrite py_div_nonzero.
  - rewrite normalize_score_eq by reflexivity. simpl. rewrite !app_nil_r.
    reflexivity.
  - intros H0.
    assert (Qlen (word :: words) == 100 * (Qlen (word :: words) / 100))
      by (field; discriminate). lra.
Qed.

(** X7. With at least one token and a volume-stability sub-score [v], the
    lexical half of [analyze_confidence] cannot fail and makes no library
    call.  With [count] fillers among [n] tokens the result is
    [(v + (10 - 100 * count / n)) / 2] as long as at most one token in ten is
    a filler, and [v / 2] from one filler in ten on. *)
Theorem confidence_with_words (L : Lib) (y : list Q) (sr : Z) (text : string)
    (v : Q) :
  outcome (volume_stability L y) = Ok v ->
  split (lower text) <> [] ->
  let count := inject_Z (filler_count (split (lower text))) in
  let n := Qlen (split (lower text)) in
  exists r,
    outcome (analyze_confidence L y sr text) = Ok r
    /\ trace (analyze_confidence L y sr text) = trace (volume_stability L y)
    /\ (10 * count <= n -> r == (v + (10 - 100 * count / n)) / 2)
    /\ (n <= 10 * count -> r == v / 2).
Proof.
  intros Hv Hne count n. subst count n.
  destruct (split (lower text)) as [|word words] eqn:Hwords; [contradiction|].
  pose proof (confidence_body_with_words L y sr text v word words Hv Hwords)
    as Hbody.
  unfold analyze_confidence, try_except. rewrite Hbody.
  pose proof (Qlen_pos word words) as Hn.
  pose proof (filler_count_nonneg (word :: words)) as Hc.
  destruct (per_hundred_bounds _ _ Hc Hn) as (H0 & Hlow & Hhigh & Heq).
  eexists. split; [reflexivity|]. split; [reflexivity|]. split.
  - intros Hfew. rewrite reversed_score_inside by (split; auto).
    rewrite Heq. reflexivity.
  - intros Hmany. rewrite score_of_high by (try reflexivity; auto).
    field.
Qed.

Lemma confidence_with_words_witness :
  exists r,
    outcome (analyze_confidence demo_lib demo_speech 16000
               " Um so I like you know Rocq") = Ok r
    /\ trace (analyze_confidence demo_lib demo_speech 16000
                " Um so I like you know Rocq") = [ERms].
Proof.
  destruct (confidence_with_words demo_lib demo_speech 16000
              " Um so I like you know Rocq" demo_volume)
    as (r & Hr & Ht & _).
  - vm_compute. reflexivity.
  - vm_compute. discriminate.
  - exists r. split; [exact Hr | exact Ht].
Defined.

(** ** Energy and engagement *)

Lemma np_ptp_ok x l : exists spread, np_ptp (x :: l) = Ok spread.
Proof. unfold np_ptp. simpl. eauto. Qed.

Lemma energy_body_guard L y sr pitches other duration :
  piptrack L y sr = Ok (pitches, other) ->
  get_duration L y sr = Ok duration ->
  duration == 0 ->
  analyze_energy_engagement_body L y sr = ([EPiptrack; EGetDuration], Ok 0).
Proof.
  intros Htrack Hdur Hzero. unfold analyze_energy_engagement_body, call.
  rewrite Htrack. simpl. rewrite Hdur. simpl.
  apply Qeq_bool_iff in Hzero. rewrite Hzero. reflexivity.
Qed.

Lemma energy_body_scores L y sr pitches other duration onsets :
  piptrack L y sr = Ok (pitches, other) ->
  get_duration L y sr = Ok duration ->
  ~ duration == 0 ->
  onset_detect L y sr = Ok onsets ->
  exists spread,
    (if (1 <? length (mask_positive pitches))%nat
     then np_ptp (mask_positive pitches) else Ok 0) = Ok spread
    /\ analyze_energy_engagement_body L y sr
       = ([EPiptrack; EGetDuration; EOnsetDetect],
          Ok ((score_of spread 50 250 false
               + score_of (Qlen onsets / duration) 2 6 false) / 2)).
Proof.
  intros Htrack Hdur Hnz Honsets.
  assert (Hspread : exists spread,
    (if (1 <? length (mask_positive pitches))%nat
     then np_ptp (mask_positive pitches) else Ok 0) = Ok spread).
  { destruct (mask_positive pitches) as [|x l]; [simpl; eauto|].
    destruct (1 <? length (x :: l))%nat; [apply np_ptp_ok | eauto]. }
  destruct Hspread as [spread Hspread]. exists spread.
  split; [exact Hspread|].
  assert (E : Qeq_bool duration 0 = false).
  { destruct (Qeq_bool duration 0) eqn:E; [|reflexivity].
    apply Qeq_bool_iff in E. contradiction. }
  unfold analyze_energy_engagement_body, call, lift.
  rewrite Htrack.
  cbn -[normalize_score np_ptp py_div mask_positive Qeq_bool Nat.ltb length
        Qlen].
  rewrite Hdur.
  cbn -[normalize_score np_ptp py_div mask_positive Qeq_bool Nat.ltb length
        Qlen].
  rewrite E, Hspread, Honsets.
  rewrite normalize_score_eq by reflexivity.
  rewrite py_div_nonzero by exact Hnz.
  cbn -[normalize_score np_ptp py_div mask_positive Qeq_bool score_of Nat.ltb
        length Qlen].
  rewrite normalize_score_eq by reflexivity. reflexivity.
Qed.

(** X8. A clip of zero duration gets energy 0.0 from the explicit guard of
    [analyze_energy_engagement]: after the pitch tracking and the duration
    query nothing else is called, in particular no onset detection, and no
    division takes place. *)
Theorem energy_zero_duration (L : Lib) (y : list Q) (sr : Z)
    (pitches other : matrix) (duration : Q) :
  piptrack L y sr = Ok (pitches, other) ->
  get_duration L y sr = Ok duration ->
  duration == 0 ->
  analyze_energy_engagement_body L y sr = ([EPiptrack; EGetDuration], Ok 0)
  /\ analyze_energy_engagement L y sr = ([EPiptrack; EGetDuration], Ok 0).
Proof.
  intros Htrack Hdur Hzero.
  pose proof (energy_body_guard L y sr pitches other duration
                Htrack Hdur Hzero) as Hbody.
  split; [exact Hbody|].
  unfold analyze_energy_engagement. rewrite Hbody. reflexivity.
Qed.

(** X9. When the pitch tracking, the duration query and the onset
    detection succeed and the duration is not zero, the rest of
    [analyze_energy_engagement] cannot fail: the result is the mean of the
    pitch-range score (bounds 50 and 250) and the speech-rate score (onsets
    per second, bounds 2 and 6).  With fewer than two positive pitch
    entries the pitch range counts as 0, so the result is half the
    speech-rate score and at most 5. *)
Theorem energy_scores (L : Lib) (y : list Q) (sr : Z)
    (pitches other : matrix) (duration : Q) (onsets : list Z) :
  piptrack L y sr = Ok (pitches, other) ->
  get_duration L y sr = Ok duration ->
  ~ duration == 0 ->
  onset_detect L y sr = Ok onsets ->
  exists spread r,
    (if (1 <? length (mask_positive pitches))%nat
     then np_ptp (mask_positive pitches) else Ok 0) = Ok spread
    /\ outcome (analyze_energy_engagement L y sr) = Ok r
    /\ r = (score_of spread 50 250 false
            + score_of (Qlen onsets / duration) 2 6 false) / 2
    /\ ((length (mask_positive pitches) < 2)%nat ->
        r == score_of (Qlen onsets / duration) 2 6 false / 2 /\ r <= 5).
Proof.
  intros Htrack Hdur Hnz Honsets.
  destruct (energy_body_scores L y sr pitches other duration onsets
              Htrack Hdur Hnz Honsets) as (spread & Hspread & Hbody).
  exists spread. eexists. split; [exact Hspread|].
  unfold analyze_energy_engagement. rewrite Hbody.
  split; [reflexivity|]. split; [reflexivity|].
  intros Hfew.
  assert (Hnot : (1 <? length (mask_positive pitches))%nat = false)
    by (apply Nat.ltb_ge; lia).
  rewrite Hnot in Hspread. injection Hspread as <-.
  assert (Hzero : score_of 0 50 250 false == 0)
    by (apply (score_of_low 0 50 250 false); [reflexivity | discriminate]).
  pose proof (score_of_range (Qlen onsets / duration) 2 6 false eq_refl)
    as [Hlo Hhi].
  split.
  - rewrite Hzero. field.
  - apply Qle_shift_div_r; [reflexivity|]. rewrite Hzero. lra.
Qed.

Lemma energy_zero_duration_witness :
  analyze_energy_engagement zero_duration_lib demo_speech 16000
  = ([EPiptrack; EGetDuration], Ok 0).
Proof.
  apply (energy_zero_duration zero_duration_lib demo_speech 16000
           demo_pitches demo_magnitudes 0); reflexivity.
Defined.

Lemma energy_scores_witness :
  exists r, outcome (analyze_energy_engagement demo_lib demo_speech 16000)
            = Ok r.
Proof.
  destruct (energy_scores demo_lib demo_speech 16000
              demo_pitches demo_magnitudes (4 / 16000) [0%Z; 2%Z])
    as (spread & r & _ & Hr & _).
  - reflexivity.
  - reflexivity.
  - discriminate.
  - reflexivity.
  - exists r. exact Hr.
Defined.

(** ** Library calls of the extractors *)

Lemma trace_of_call {A} ev (r : result A) : trace (call ev r) = [ev].
Proof. reflexivity. Qed.

Lemma trace_of_lift {A} (r : result A) : trace (lift r) = [].
Proof. reflexivity. Qed.

Ltac trace_step :=
  rewrite ?trace_try_except, ?trace_bind, ?trace_of_call, ?trace_of_lift,
          ?outcome_bind, ?outcome_call, ?outcome_lift;
  match goal with
  | |- context [match ?x with _ => _ end] => destruct x eqn:?
  end.

(** X10. The extractors use the spectral capabilities only, in a fixed
    order: [analyze_clarity] calls the pitch tracker, then at most the RMS
    envelope; [analyze_confidence] calls the RMS envelope and nothing else;
    [analyze_energy_engagement] calls the pitch tracker, then at most the
    duration query and then at most the onset detection. *)
Theorem extractor_calls (L : Lib) (y : list Q) (sr : Z) (text : string) :
  (trace (analyze_clarity L y sr) = [EPiptrack]
   \/ trace (analyze_clarity L y sr) = [EPiptrack; ERms])
  /\ trace (analyze_confidence L y sr text) = [ERms]
  /\ (trace (analyze_energy_engagement L y sr) = [EPiptrack]
      \/ trace (analyze_energy_engagement L y sr) = [EPiptrack; EGetDuration]
      \/ trace (analyze_energy_engagement L y sr)
         = [EPiptrack; EGetDuration; EOnsetDetect]).
Proof.
  split; [|split].
  - unfold analyze_clarity, analyze_clarity_body.
    repeat trace_step; simpl; auto.
  - unfold analyze_confidence, analyze_confidence_body, volume_stability.
    repeat trace_step; simpl; auto.
  - unfold analyze_energy_engagement, analyze_energy_engagement_body.
    repeat trace_step; simpl; auto.
Qed.

(** ** The orchestrator, beyond the claims *)

Lemma peak_below l peak bound :
  np_max (np_abs l) = Ok peak ->
  peak < bound <-> List.Forall (fun x => Qabs x < bound) l.
Proof.
  intros Hpeak. apply np_max_spec in Hpeak. destruct Hpeak as [Hin Hall].
  unfold np_abs in *. rewrite List.Forall_forall in *. split.
  - intros Hlt x Hx.
    assert (Hle : Qabs x <= peak) by (apply Hall, in_map, Hx). lra.
  - intros Hsmall. apply in_map_iff in Hin.
    destruct Hin as (x & <- & Hx). apply Hsmall, Hx.
Qed.

Lemma np_max_nonempty x l : exists peak, np_max (np_abs (x :: l)) = Ok peak.
Proof. simpl. eauto. Qed.

Lemma after_load_loud L y sr peak :
  np_max (np_abs y) = Ok peak -> 1 # 1000 <= peak ->
  after_load L y sr = analyze_speech L y sr.
Proof.
  intros Hpeak Hloud. unfold after_load, lift. rewrite Hpeak.
  assert (E : Qlt_bool peak (1 # 1000) = false)
    by (apply Qlt_bool_false, Hloud).
  unfold mbind, M_bind, bind. rewrite E.
  destruct (analyze_speech L y sr). reflexivity.
Qed.

Lemma analyze_speech_starts L y sr :
  exists rest,
    trace (analyze_speech L y sr)
    = EPrint "Transcribing audio data..." :: ETranscribe :: rest.
Proof.
  unfold analyze_speech. rewrite trace_bind. unfold print.
  cbn [trace outcome fst snd]. rewrite trace_bind, trace_of_call.
  cbn [app]. eauto.
Qed.

(** X12. The silence check looks at every sample.  For a loaded, non-empty
    waveform: if every sample is below 0.001 in absolute value the result
    is the silence report; if some sample reaches 0.001 the silence branch
    is not taken, whisper is called and the result is that of the analysis
    of the speech. *)
Theorem silence_criterion (L : Lib) (path : string) (y : list Q) (sr : Z) :
  outcome (load_audio L path) = Ok (y, sr) ->
  y <> [] ->
  (List.Forall (fun x => Qabs x < 1 # 1000) y ->
   outcome (run_full_analysis L path) = Ok silent_report
   /\ ~ In ETranscribe (trace (run_full_analysis L path)))
  /\ (List.Exists (fun x => 1 # 1000 <= Qabs x) y ->
      outcome (run_full_analysis L path) = outcome (analyze_speech L y sr)
      /\ In ETranscribe (trace (run_full_analysis L path))).
Proof.
  intros Hload Hne. destruct y as [|x y]; [contradiction|].
  destruct (np_max_nonempty x y) as [peak Hpeak].
  rewrite (run_after_load L path _ sr Hload). split.
  - intros Hquiet. apply (peak_below _ _ _ Hpeak) in Hquiet.
    assert (Hafter : after_load L (x :: y) sr = ([], Ok silent_report)).
    { unfold after_load, lift. rewrite Hpeak. simpl.
      apply Qlt_bool_iff in Hquiet. rewrite Hquiet. reflexivity. }
    rewrite Hafter. simpl. split; [reflexivity|].
    rewrite app_nil_r. intros [Hin|Hin]; [discriminate|].
    pose proof (load_audio_trace L path) as Hevents.
    rewrite List.Forall_forall in Hevents. apply Hevents in Hin.
    discriminate.
  - intros Hloud.
    assert (Hpk : 1 # 1000 <= peak).
    { destruct (Qlt_le_dec peak (1 # 1000)) as [Hlt|Hle]; [|exact Hle].
      apply (peak_below _ _ _ Hpeak) in Hlt.
      apply List.Exists_exists in Hloud. destruct Hloud as (z & Hz & Hbig).
      rewrite List.Forall_forall in Hlt. apply Hlt in Hz. lra. }
    rewrite (after_load_loud L _ sr peak Hpeak Hpk).
    split; [reflexivity|].
    destruct (analyze_speech_starts L (x :: y) sr) as [rest ->].
    simpl. right. apply in_or_app. right. simpl. auto.
Qed.

Lemma silence_criterion_witness :
  outcome (run_full_analysis demo_lib "silence.wav") = Ok silent_report
  /\ ~ In ETranscribe (trace (run_full_analysis demo_lib "silence.wav")).
Proof.
  apply (silence_criterion demo_lib "silence.wav" [0; 1 # 2000; 0] 16000).
  - reflexivity.
  - discriminate.
  - repeat constructor.
Defined.

(** X13. An empty waveform is not caught by the silence check: when the
    audio loads as an empty array, [np.max] raises [ValueError] outside any
    [try] block and [run_full_analysis] raises it to its caller, before any
    transcription or extraction. *)
Theorem empty_waveform_raises (L : Lib) (path : string) (sr : Z) :
  outcome (load_audio L path) = Ok ([], sr) ->
  outcome (run_full_analysis L path) = Raise (empty_reduction "maximum")
  /\ exn_cls (empty_reduction "maximum") = ValueError
  /\ trace (run_full_analysis L path)
     = EPrint ("Processing file: " +:+ path +:+ "...")
         :: trace (load_audio L path).
Proof.
  intros Hload. rewrite (run_after_load L path [] sr Hload).
  simpl. rewrite app_nil_r. auto.
Qed.

Lemma empty_waveform_raises_witness :
  outcome (run_full_analysis empty_clip_lib "speech.wav")
  = Raise (empty_reduction "maximum").
Proof.
  apply (empty_waveform_raises empty_clip_lib "speech.wav" 16000).
  reflexivity.
Defined.

Lemma analyze_speech_transcribe_raises L y sr e :
  transcribe L y = Raise e ->
  analyze_speech L y sr
  = ([EPrint "Transcribing audio data..."; ETranscribe], Raise e).
Proof.
  intros Hfail. unfold analyze_speech, call, print. rewrite Hfail.
  reflexivity.
Qed.

Lemma analyze_speech_no_text L y sr (d : gmap string string) :
  transcribe L y = Ok d -> d !! "text" = None ->
  analyze_speech L y sr
  = ([EPrint "Transcribing audio data..."; ETranscribe],
     Raise (mkExn KeyError "text")).
Proof.
  intros Hd Hmissing. unfold analyze_speech, call, print, lift, getitem.
  rewrite Hd. cbn -[lookup]. rewrite Hmissing. reflexivity.
Qed.

(** X14. A failure of the transcription is not handled: when the audio
    loads, is not silent and whisper raises [e], [run_full_analysis] raises
    [e] to its caller; a whisper result without a "text" entry raises
    [KeyError].  In both cases no extractor has been called. *)
Theorem transcription_failure_propagates (L : Lib) (path : string)
    (y : list Q) (sr : Z) (peak : Q) :
  outcome (load_audio L path) = Ok (y, sr) ->
  np_max (np_abs y) = Ok peak ->
  1 # 1000 <= peak ->
  (forall e, transcribe L y = Raise e ->
     run_full_analysis L path
     = (EPrint ("Processing file: " +:+ path +:+ "...")
          :: trace (load_audio L path)
          ++ [EPrint "Transcribing audio data..."; ETranscribe],
        Raise e))
  /\ (forall d : gmap string string,
        transcribe L y = Ok d -> d !! "text" = None ->
        run_full_analysis L path
        = (EPrint ("Processing file: " +:+ path +:+ "...")
             :: trace (load_audio L path)
             ++ [EPrint "Transcribing audio data..."; ETranscribe],
           Raise (mkExn KeyError "text"))).
Proof.
  intros Hload Hpeak Hloud.
  rewrite (run_after_load L path y sr Hload).
  rewrite (after_load_loud L y sr peak Hpeak Hloud). split.
  - intros e Hfail.
    rewrite (analyze_speech_transcribe_raises L y sr e Hfail). reflexivity.
  - intros d Hd Hmissing.
    rewrite (analyze_speech_no_text L y sr d Hd Hmissing). reflexivity.
Qed.

Lemma transcription_failure_propagates_witness :
  outcome (run_full_analysis deaf_lib "speech.wav") = Raise out_of_memory.
Proof.
  destruct (transcription_failure_propagates deaf_lib "speech.wav"
              demo_speech 16000 (1 # 2)) as [Hraise _];
    [reflexivity | reflexivity | discriminate |].
  rewrite (Hraise out_of_memory eq_refl). reflexivity.
Defined.

Lemma extractor_outcomes L y sr text :
  exists clarity confidence engagement,
    outcome (analyze_clarity L y sr) = Ok clarity
    /\ outcome (analyze_confidence L y sr text) = Ok confidence
    /\ outcome (analyze_energy_engagement L y sr) = Ok engagement.
Proof.
  destruct (try_except_returns (analyze_clarity_body L y sr) 0) as [c Hc].
  destruct (try_except_returns (analyze_confidence_body L y sr text) 0)
    as [f Hf].
  destruct (try_except_returns (analyze_energy_engagement_body L y sr) 0)
    as [g Hg].
  exists c, f, g. auto.
Qed.

Lemma getitem_some {V} (d : gmap string V) key v :
  d !! key = Some v -> getitem d key = Ok v.
Proof. intros H. unfold getitem. rewrite H. reflexivity. Qed.

Lemma analyze_speech_outcome L y sr :
  (exists e, transcribe L y = Raise e
             /\ outcome (analyze_speech L y sr) = Raise e)
  \/ (exists d : gmap string string,
        transcribe L y = Ok d /\ d !! "text" = None
        /\ outcome (analyze_speech L y sr) = Raise (mkExn KeyError "text"))
  \/ (exists (d : gmap string string) text clarity confidence engagement,
        transcribe L y = Ok d /\ d !! "text" = Some text
        /\ outcome (analyze_clarity L y sr) = Ok clarity
        /\ outcome (analyze_confidence L y sr text) = Ok confidence
        /\ outcome (analyze_energy_engagement L y sr) = Ok engagement
        /\ outcome (analyze_speech L y sr)
           = Ok {[ "Clarity Score" := VNum clarity;
                   "Confidence Score" := VNum confidence;
                   "Energy & Engagement Score" := VNum engagement;
                   "Professionalism Score" :=
                     VNum ((clarity + confidence) / 2);
                   "Mood Analysis" := VStr "Not Implemented";
                   "Transcription" := VStr text ]}).
Proof.
  destruct (transcribe L y) as [d|e] eqn:Hd.
  - destruct (d !! "text") as [text|] eqn:Htext.
    + right. right.
      destruct (extractor_outcomes L y sr text) as (c & f & g & Hc & Hf & Hg).
      exists d, text, c, f, g. repeat (split; [assumption || reflexivity|]).
      unfold analyze_speech.
      rewrite outcome_bind. simpl outcome at 1. cbv iota.
      rewrite outcome_bind, outcome_call, Hd.
      rewrite outcome_bind, outcome_lift, (getitem_some d "text" text Htext).
      rewrite outcome_bind. simpl outcome at 1. cbv iota.
      rewrite outcome_bind, Hc, outcome_bind, Hf, outcome_bind, Hg.
      rewrite outcome_bind, outcome_lift, professionalism_of_scores.
      rewrite outcome_bind, outcome_lift, mood_status. reflexivity.
    + right. left. exists d. split; [reflexivity|]. split; [exact Htext|].
      rewrite (analyze_speech_no_text L y sr d Hd Htext). reflexivity.
  - left. exists e. split; [reflexivity|].
    rewrite (analyze_speech_transcribe_raises L y sr e Hd). reflexivity.
Qed.

(** X15. [run_full_analysis] raises in three situations only, all after a
    successful load: the waveform is empty, whisper raises, or whisper's
    result has no "text" entry.  In particular a failure of the loading
    stage or inside an extractor never reaches the caller as an exception. *)
Theorem run_full_analysis_raises (L : Lib) (path : string) (e : exn) :
  outcome (run_full_analysis L path) = Raise e ->
  exists y sr,
    outcome (load_audio L path) = Ok (y, sr)
    /\ ((y = [] /\ e = empty_reduction "maximum")
        \/ transcribe L y = Raise e
        \/ (exists d : gmap string string,
              transcribe L y = Ok d /\ d !! "text" = None
              /\ e = mkExn KeyError "text")).
Proof.
  intros Hraise.
  destruct (outcome (load_audio L path)) as [[y sr]|e0] eqn:Hload.
  2: { rewrite (run_load_failure L path e0 Hload) in Hraise. discriminate. }
  exists y, sr. split; [reflexivity|].
  rewrite (run_after_load L path y sr Hload) in Hraise. simpl in Hraise.
  destruct y as [|x y].
  { left. injection Hraise as <-. auto. }
  right. destruct (np_max_nonempty x y) as [peak Hpeak].
  destruct (Qlt_le_dec peak (1 # 1000)) as [Hquiet|Hloud].
  - exfalso. unfold after_load, lift in Hraise. rewrite Hpeak in Hraise.
    apply Qlt_bool_iff in Hquiet.
    unfold mbind, M_bind, bind in Hraise. rewrite Hquiet in Hraise.
    discriminate.
  - rewrite (after_load_loud L _ sr peak Hpeak Hloud) in Hraise.
    destruct (analyze_speech_outcome L (x :: y) sr)
      as [(e1 & Hd & Hout)|[(d & Hd & Hmiss & Hout)|Hok]].
    + left. rewrite Hout in Hraise. injection Hraise as <-. exact Hd.
    + right. exists d. rewrite Hout in Hraise. injection Hraise as <-. auto.
    + destruct Hok as (d & text & c & f & g & _ & _ & _ & _ & _ & Hout).
      rewrite Hout in Hraise. discriminate.
Qed.

Lemma run_full_analysis_raises_witness :
  exists y sr,
    outcome (load_audio deaf_lib "speech.wav") = Ok (y, sr)
    /\ ((y = [] /\ out_of_memory = empty_reduction "maximum")
        \/ transcribe deaf_lib y = Raise out_of_memory
        \/ (exists d : gmap string string,
              transcribe deaf_lib y = Ok d /\ d !! "text" = None
              /\ out_of_memory = mkExn KeyError "text")).
Proof.
  apply (run_full_analysis_raises deaf_lib "speech.wav" out_of_memory).
  reflexivity.
Defined.

Lemma speech_report_dom (c f g p : Q) (status text : string) :
  dom ({[ "Clarity Score" := VNum c;
          "Confidence Score" := VNum f;
          "Energy & Engagement Score" := VNum g;
          "Professionalism Score" := VNum p;
          "Mood Analysis" := VStr status;
          "Transcription" := VStr text ]} : gmap string pyval)
  = report_keys.
Proof.
  unfold report_keys. rewrite !dom_insert_L, dom_singleton_L. set_solver.
Qed.

(** X16. The shape of a report.  A result of [run_full_analysis] is either
    the error mapping, whose only key is "error", or a mapping with exactly
    the six report keys and no "error" key, in which "Mood Analysis" is
    "Not Implemented"; so the key "error" tells a load failure from a
    report.  In a report other than the silence report, "Transcription" is
    the "text" entry of whisper's result, unchanged. *)
Theorem report_shape (L : Lib) (path : string) (report : gmap string pyval) :
  outcome (run_full_analysis L path) = Ok report ->
  (dom report = {[ "error" ]}
   /\ exists e, outcome (load_audio L path) = Raise e)
  \/ (dom report = report_keys
      /\ report !! "error" = None
      /\ report !! "Mood Analysis" = Some (VStr "Not Implemented")
      /\ exists y sr,
           outcome (load_audio L path) = Ok (y, sr)
           /\ (report = silent_report
               \/ exists (d : gmap string string) text,
                    transcribe L y = Ok d /\ d !! "text" = Some text
                    /\ report !! "Transcription" = Some (VStr text))).
Proof.
  intros Hrun.
  destruct (run_full_analysis_cases L path report Hrun)
    as [(e & Hload & ->)|(y & sr & Hload & Hafter)].
  { left. split; [apply dom_singleton_L | eauto]. }
  right.
  destruct (after_load_cases L y sr report Hafter)
    as (peak & Hpeak & [[_ ->]|[_ Hspeech]]).
  { split; [apply speech_report_dom|]. split; [reflexivity|].
    split; [reflexivity|]. exists y, sr. auto. }
  destruct (analyze_speech_outcome L y sr)
    as [(e1 & _ & Hout)|[(d & _ & _ & Hout)|Hok]];
    try (rewrite Hout in Hspeech; discriminate).
  destruct Hok as (d & text & c & f & g & Hd & Htext & _ & _ & _ & Hout).
  rewrite Hout in Hspeech. injection Hspeech as <-.
  split; [apply speech_report_dom|].
  generalize ((c + f) / 2). intros p.
  split; [reflexivity|]. split; [reflexivity|].
  exists y, sr. split; [exact Hload|]. right. exists d, text. auto.
Qed.

Lemma report_shape_witness :
  dom demo_report = report_keys /\ demo_report !! "error" = None.
Proof.
  destruct (report_shape demo_lib "speech.wav" demo_report)
    as [[Hdom [e He]]|(Hdom & Herr & _)].
  - vm_compute. reflexivity.
  - discriminate He.
  - split; [exact Hdom | exact Herr].
Defined.

(** ** The endpoint *)

Lemma clean_up_cases H path :
  clean_up H path
  = if path_exists H path
    then match os_remove H path with
         | Ok _ => ([WSleep (1 # 10); WExists path; WRemove path], Ok tt)
         | Raise e =>
             if is_OSError H e
             then ([WSleep (1 # 10); WExists path; WRemove path;
                    WPrint ("Error removing file " +:+ path +:+ ": "
                            +:+ exn_str e)], Ok tt)
             else ([WSleep (1 # 10); WExists path; WRemove path], Raise e)
         end
    else ([WSleep (1 # 10); WExists path], Ok tt).
Proof.
  unfold clean_up, wcall, wtry. simpl.
  destruct (path_exists H path); [|reflexivity].
  destruct (os_remove H path) as [[]|e]; [reflexivity|].
  destruct (is_OSError H e); reflexivity.
Qed.

Lemma analyze_audio_saved H L files file :
  usable files file ->
  save H file (temp_path H file) = Ok tt ->
  analyze_audio H L files
  = (WSave (temp_path H file)
       :: map WAnalysis (trace (run_full_analysis L (temp_path H file)))
       ++ wtrace (clean_up H (temp_path H file)),
     match woutcome (clean_up H (temp_path H file)) with
     | Ok _ =>
         Ok (response_of (outcome (run_full_analysis L (temp_path H file))))
     | Raise e => Raise e
     end).
Proof.
  intros (Hfile & Hname & Htruth) Hsave. unfold analyze_audio.
  apply String.eqb_neq in Hname. rewrite Hfile, Hname, Htruth.
  fold (temp_path H file). unfold wcall at 1. rewrite Hsave.
  unfold run_analysis.
  destruct (run_full_analysis L (temp_path H file)) as [t [report|e]];
    destruct (clean_up H (temp_path H file)) as [t' [[]|e']];
    cbn -[lookup]; rewrite ?app_nil_r; try reflexivity.
  destruct (report !! "error"); cbn; rewrite ?app_nil_r; reflexivity.
Qed.

Lemma clean_up_safe H path :
  (forall e, os_remove H path = Raise e -> is_OSError H e = true) ->
  woutcome (clean_up H path) = Ok tt.
Proof.
  intros Hsafe. rewrite clean_up_cases.
  destruct (path_exists H path); [|reflexivity].
  destruct (os_remove H path) as [[]|e] eqn:E; [reflexivity|].
  rewrite (Hsafe e eq_refl). reflexivity.
Qed.

Lemma analyze_audio_response H L files file :
  usable files file ->
  save H file (temp_path H file) = Ok tt ->
  (forall e, os_remove H (temp_path H file) = Raise e ->
             is_OSError H e = true) ->
  woutcome (analyze_audio H L files)
  = Ok (response_of (outcome (run_full_analysis L (temp_path H file)))).
Proof.
  intros Huse Hsave Hsafe.
  rewrite (analyze_audio_saved H L files file Huse Hsave).
  unfold woutcome at 1. simpl snd.
  rewrite (clean_up_safe H _ Hsafe). reflexivity.
Qed.

(** X18. [analyze_audio] answers without saving, analysing or removing
    anything in three cases: no "audio_file" part in the request (400), an
    empty file name (400), and a file object that is false although its
    name is not empty (500, "An unknown error occurred"). *)
Theorem request_rejected (H : Host) (L : Lib) (files : gmap string upload) :
  (files !! "audio_file" = None ->
   analyze_audio H L files
   = ([], Ok (error_response "No audio file part in the request" 400)))
  /\ (forall file,
        files !! "audio_file" = Some file -> filename file = "" ->
        analyze_audio H L files
        = ([], Ok (error_response "No selected file" 400)))
  /\ (forall file,
        files !! "audio_file" = Some file -> filename file <> "" ->
        truth file = false ->
        analyze_audio H L files
        = ([], Ok (error_response "An unknown error occurred" 500))).
Proof.
  unfold analyze_audio. split; [|split].
  - intros ->. reflexivity.
  - intros file -> ->. reflexivity.
  - intros file -> Hname ->. apply String.eqb_neq in Hname.
    rewrite Hname. reflexivity.
Qed.

Lemma request_rejected_witness :
  analyze_audio demo_host served_lib ∅
  = ([], Ok (error_response "No audio file part in the request" 400)).
Proof.
  apply (request_rejected demo_host served_lib ∅). reflexivity.
Defined.

(** X19. For a usable upload that is saved, and when removing the file can
    only fail with [OSError], [analyze_audio] returns a response whose
    status is 200 exactly when the analysis returned a mapping without the
    key "error", and 500 otherwise; whenever the analysis returned a
    mapping, that mapping is the body, with or without "error". *)
Theorem endpoint_status (H : Host) (L : Lib) (files : gmap string upload)
    (file : upload) :
  usable files file ->
  save H file (temp_path H file) = Ok tt ->
  (forall e, os_remove H (temp_path H file) = Raise e ->
             is_OSError H e = true) ->
  exists resp,
    woutcome (analyze_audio H L files) = Ok resp
    /\ (status_code resp = 200%Z
        <-> exists report,
              outcome (run_full_analysis L (temp_path H file)) = Ok report
              /\ report !! "error" = None)
    /\ (status_code resp = 200%Z \/ status_code resp = 500%Z)
    /\ (forall report,
          outcome (run_full_analysis L (temp_path H file)) = Ok report ->
          body_of resp = report).
Proof.
  intros Huse Hsave Hsafe. eexists.
  split; [apply (analyze_audio_response H L files file Huse Hsave Hsafe)|].
  destruct (outcome (run_full_analysis L (temp_path H file)))
    as [report|e]; simpl.
  - destruct (report !! "error") as [v|] eqn:Herr; simpl.
    + split; [|split; [auto|intros r [= <-]; reflexivity]].
      split; [discriminate|]. intros (r & [= <-] & Hr). congruence.
    + split; [|split; [auto|intros r [= <-]; reflexivity]].
      split; [eauto|reflexivity].
  - split; [|split; [auto|discriminate]].
    split; [discriminate|]. intros (r & Hr & _). discriminate.
Qed.

Lemma endpoint_status_witness :
  exists resp,
    woutcome (analyze_audio demo_host served_lib (demo_files "speech.wav"))
    = Ok resp
    /\ (status_code resp = 200%Z \/ status_code resp = 500%Z).
Proof.
  destruct (endpoint_status demo_host served_lib (demo_files "speech.wav")
              (mkUpload "speech.wav" true))
    as (resp & Hresp & _ & Hcode & _).
  - split; [reflexivity|]. split; [discriminate | reflexivity].
  - reflexivity.
  - intros e He. discriminate He.
  - exists resp. split; [exact Hresp | exact Hcode].
Defined.

(** X20. The two kinds of failure reach the client as different bodies,
    both with status 500.  A load failure is the error mapping of
    [run_full_analysis], "Could not load audio file: ...".  An exception
    that [run_full_analysis] lets through, from whisper or from the peak of
    an empty waveform, becomes "Analysis failed unexpectedly: ...". *)
Theorem endpoint_failures (H : Host) (L : Lib) (files : gmap string upload)
    (file : upload) :
  usable files file ->
  save H file (temp_path H file) = Ok tt ->
  (forall e, os_remove H (temp_path H file) = Raise e ->
             is_OSError H e = true) ->
  (forall e,
     outcome (load_audio L (temp_path H file)) = Raise e ->
     woutcome (analyze_audio H L files)
     = Ok (error_response ("Could not load audio file: " +:+ exn_str e) 500))
  /\ (forall y sr peak e,
        outcome (load_audio L (temp_path H file)) = Ok (y, sr) ->
        np_max (np_abs y) = Ok peak -> 1 # 1000 <= peak ->
        transcribe L y = Raise e ->
        woutcome (analyze_audio H L files)
        = Ok (error_response
                ("Analysis failed unexpectedly: " +:+ exn_str e) 500))
  /\ (forall sr,
        outcome (load_audio L (temp_path H file)) = Ok ([], sr) ->
        woutcome (analyze_audio H L files)
        = Ok (error_response
                ("Analysis failed unexpectedly: "
                 +:+ "zero-size array to reduction operation maximum "
                 +:+ "which has no identity") 500)).
Proof.
  intros Huse Hsave Hsafe.
  rewrite (analyze_audio_response H L files file Huse Hsave Hsafe).
  split; [|split].
  - intros e Hload. rewrite (run_load_failure L _ e Hload). reflexivity.
  - intros y sr peak e Hload Hpeak Hloud Hfail.
    rewrite (run_after_load L _ y sr Hload).
    rewrite (after_load_loud L y sr peak Hpeak Hloud).
    rewrite (analyze_speech_transcribe_raises L y sr e Hfail). reflexivity.
  - intros sr Hload. rewrite (run_after_load L _ [] sr Hload). reflexivity.
Qed.

Lemma endpoint_failures_witness :
  woutcome (analyze_audio demo_host served_lib (demo_files "notes.txt"))
  = Ok (error_response
          ("Could not load audio file: "
           +:+ "Decoding failed. ffmpeg returned error code: 1") 500).
Proof.
  destruct (endpoint_failures demo_host served_lib (demo_files "notes.txt")
              (mkUpload "notes.txt" true)) as [Hload _].
  - split; [reflexivity|]. split; [discriminate | reflexivity].
  - reflexivity.
  - intros e He. discriminate He.
  - apply (Hload (mkExn LibraryError
                    "Decoding failed. ffmpeg returned error code: 1")).
    reflexivity.
Defined.

(** X21. A silent upload is a success for the client: for a usable, saved
    upload whose waveform is not empty and has every sample below 0.001 in
    absolute value, the response is the silence report with status 200. *)
Theorem endpoint_silence (H : Host) (L : Lib) (files : gmap string upload)
    (file : upload) (y : list Q) (sr : Z) :
  usable files file ->
  save H file (temp_path H file) = Ok tt ->
  (forall e, os_remove H (temp_path H file) = Raise e ->
             is_OSError H e = true) ->
  outcome (load_audio L (temp_path H file)) = Ok (y, sr) ->
  y <> [] ->
  List.Forall (fun x => Qabs x < 1 # 1000) y ->
  woutcome (analyze_audio H L files) = Ok (Response silent_report None)
  /\ status_code (Response silent_report None) = 200%Z.
Proof.
  intros Huse Hsave Hsafe Hload Hne Hquiet.
  rewrite (analyze_audio_response H L files file Huse Hsave Hsafe).
  rewrite (run_after_load L _ y sr Hload).
  destruct y as [|x y]; [contradiction|].
  destruct (np_max_nonempty x y) as [peak Hpeak].
  apply (peak_below _ _ _ Hpeak) in Hquiet.
  assert (Hafter : after_load L (x :: y) sr = ([], Ok silent_report)).
  { unfold after_load, lift. rewrite Hpeak. simpl.
    apply Qlt_bool_iff in Hquiet. rewrite Hquiet. reflexivity. }
  rewrite Hafter. split; reflexivity.
Qed.

Lemma endpoint_silence_witness :
  woutcome (analyze_audio demo_host served_lib (demo_files "silence.wav"))
  = Ok (Response silent_report None).
Proof.
  apply (endpoint_silence demo_host served_lib (demo_files "silence.wav")
           (mkUpload "silence.wav" true) [0; 1 # 2000; 0] 16000).
  - split; [reflexivity|]. split; [discriminate | reflexivity].
  - reflexivity.
  - intros e He. discriminate He.
  - reflexivity.
  - discriminate.
  - repeat constructor.
Defined.

(** X22. Once the upload is saved the [finally] block always runs, whether
    the analysis returned or raised: after the calls of the analysis come
    the 0.1 s sleep and the existence test, and a removal of the stored
    path exactly when the file exists.  An [OSError] from the removal is
    printed and the response is the one of the analysis; any other
    exception from the removal replaces the response. *)
Theorem cleanup_always_runs (H : Host) (L : Lib) (files : gmap string upload)
    (file : upload) :
  usable files file ->
  save H file (temp_path H file) = Ok tt ->
  let path := temp_path H file in
  (exists rest,
     wtrace (analyze_audio H L files)
     = WSave path :: map WAnalysis (trace (run_full_analysis L path))
       ++ WSleep (1 # 10) :: WExists path :: rest
     /\ (path_exists H path = false -> rest = [])
     /\ (path_exists H path = true ->
         exists printed, rest = WRemove path :: printed))
  /\ (forall e,
        path_exists H path = true -> os_remove H path = Raise e ->
        is_OSError H e = true ->
        analyze_audio H L files
        = (WSave path :: map WAnalysis (trace (run_full_analysis L path))
             ++ [WSleep (1 # 10); WExists path; WRemove path;
                 WPrint ("Error removing file " +:+ path +:+ ": "
                         +:+ exn_str e)],
           Ok (response_of (outcome (run_full_analysis L path)))))
  /\ (forall e,
        path_exists H path = true -> os_remove H path = Raise e ->
        is_OSError H e = false ->
        woutcome (analyze_audio H L files) = Raise e).
Proof.
  intros Huse Hsave path. subst path.
  rewrite (analyze_audio_saved H L files file Huse Hsave).
  rewrite clean_up_cases. split; [|split].
  - destruct (path_exists H (temp_path H file)).
    + destruct (os_remove H (temp_path H file)) as [[]|e];
        [|destruct (is_OSError H e)];
        eexists; (split; [reflexivity|]); (split; [discriminate|]); eauto.
    + eexists. split; [reflexivity|]. split; [reflexivity | discriminate].
  - intros e -> -> ->. reflexivity.
  - intros e -> -> ->. reflexivity.
Qed.

Lemma cleanup_always_runs_witness :
  analyze_audio locked_host served_lib (demo_files "silence.wav")
  = (WSave "uploads/silence.wav"
       :: map WAnalysis
            (trace (run_full_analysis served_lib "uploads/silence.wav"))
       ++ [WSleep (1 # 10); WExists "uploads/silence.wav";
           WRemove "uploads/silence.wav";
           WPrint ("Error removing file " +:+ "uploads/silence.wav" +:+ ": "
                   +:+ "[WinError 32] The process cannot access the file")],
     Ok (response_of
           (outcome (run_full_analysis served_lib "uploads/silence.wav")))).
Proof.
  destruct (cleanup_always_runs locked_host served_lib
              (demo_files "silence.wav") (mkUpload "silence.wav" true))
    as (_ & Hos & _).
  - split; [reflexivity|]. split; [discriminate | reflexivity].
  - reflexivity.
  - apply (Hos (mkExn LibraryError
                  "[WinError 32] The process cannot access the file"));
      reflexivity.
Defined.

(** X23. Saving the upload is not protected: when [file.save] raises,
    [analyze_audio] raises the same exception; the analysis is not started
    and the [finally] block does not run, so nothing is removed. *)
Theorem save_failure_propagates (H : Host) (L : Lib)
    (files : gmap string upload) (file : upload) (e : exn) :
  usable files file ->
  save H file (temp_path H file) = Raise e ->
  analyze_audio H L files = ([WSave (temp_path H file)], Raise e).
Proof.
  intros (Hfile & Hname & Htruth) Hsave. unfold analyze_audio.
  apply String.eqb_neq in Hname. rewrite Hfile, Hname, Htruth.
  fold (temp_path H file). unfold wcall at 1. rewrite Hsave. reflexivity.
Qed.

Lemma save_failure_propagates_witness :
  analyze_audio full_disk_host served_lib (demo_files "speech.wav")
  = ([WSave "uploads/speech.wav"],
     Raise (mkExn LibraryError "[Errno 28] No space left on device")).
Proof.
  apply (save_failure_propagates full_disk_host served_lib
           (demo_files "speech.wav") (mkUpload "speech.wav" true)).
  - split; [reflexivity|]. split; [discriminate | reflexivity].
  - reflexivity.
Defined.

(** ** Loading, and the order of the calls *)

Lemma load_audio_returns L path y sr :
  outcome (load_audio L path) = Ok (y, sr) ->
  trace (load_audio L path)
  = [EFromFile path; ESetChannels 1; ESetFrameRate 16000; EExport "wav";
     ELibrosaLoad 16000].
Proof.
  unfold load_audio, call.
  destruct (from_file L path) as [seg|e]; simpl; [|discriminate].
  destruct (set_channels L seg 1) as [seg1|e]; simpl; [|discriminate].
  destruct (set_frame_rate L seg1 16000) as [seg2|e]; simpl; [|discriminate].
  destruct (export L seg2 "wav") as [buf|e]; simpl; [|discriminate].
  destruct (librosa_load L buf 16000) as [l|e]; simpl; [|discriminate].
  reflexivity.
Qed.

(** X11. The loading stage decodes, forces one channel, forces 16000 Hz,
    exports as WAV and re-decodes at 16000 Hz, in this order, and stops at
    the first call that raises: its calls are always a prefix of these
    five, and all five when it returns. *)
Theorem load_audio_calls (L : Lib) (path : string) :
  (exists later,
     [EFromFile path; ESetChannels 1; ESetFrameRate 16000; EExport "wav";
      ELibrosaLoad 16000]
     = trace (load_audio L path) ++ later)
  /\ trace (load_audio L path) <> []
  /\ (forall loaded,
        outcome (load_audio L path) = Ok loaded ->
        trace (load_audio L path)
        = [EFromFile path; ESetChannels 1; ESetFrameRate 16000;
           EExport "wav"; ELibrosaLoad 16000]).
Proof.
  split; [|split].
  - unfold load_audio, call.
    destruct (from_file L path) as [seg|e]; simpl; [|eexists; reflexivity].
    destruct (set_channels L seg 1) as [seg1|e]; simpl;
      [|eexists; reflexivity].
    destruct (set_frame_rate L seg1 16000) as [seg2|e]; simpl;
      [|eexists; reflexivity].
    destruct (export L seg2 "wav") as [buf|e]; simpl;
      [|eexists; reflexivity].
    destruct (librosa_load L buf 16000) as [l|e]; simpl; exists [];
      reflexivity.
  - unfold load_audio. rewrite trace_bind, trace_of_call. discriminate.
  - intros [y sr]. apply load_audio_returns.
Qed.

Lemma analyze_speech_trace L y sr (d : gmap string string) text :
  transcribe L y = Ok d -> d !! "text" = Some text ->
  trace (analyze_speech L y sr)
  = [EPrint "Transcribing audio data..."; ETranscribe;
     EPrint ("Transcription: '" +:+ text +:+ "'")]
    ++ trace (analyze_clarity L y sr)
    ++ trace (analyze_confidence L y sr text)
    ++ trace (analyze_energy_engagement L y sr).
Proof.
  intros Hd Htext.
  destruct (extractor_outcomes L y sr text) as (c & f & g & Hc & Hf & Hg).
  unfold analyze_speech.
  rewrite trace_bind. unfold print at 1 2. cbn [trace outcome fst snd].
  rewrite trace_bind, trace_of_call, outcome_call, Hd.
  rewrite trace_bind, trace_of_lift, outcome_lift,
    (getitem_some d "text" text Htext).
  rewrite trace_bind. unfold print at 1 2. cbn [trace outcome fst snd].
  rewrite trace_bind, Hc, trace_bind, Hf, trace_bind, Hg.
  rewrite trace_bind, trace_of_lift, outcome_lift, professionalism_of_scores.
  rewrite trace_bind, trace_of_lift, outcome_lift, mood_status.
  cbn [app]. unfold trace at 4. cbn [fst mret M_ret ret].
  rewrite !app_nil_r. reflexivity.
Qed.

(** X17. The calls of a complete analysis.  When the audio loads, is not
    silent and whisper returns a text, [run_full_analysis] makes, in this
    order: the five loading calls, one call to whisper, the print of the
    transcript, then the calls of [analyze_clarity], of
    [analyze_confidence] and of [analyze_energy_engagement]; whisper is
    called once and nothing is called after the last extractor. *)
Theorem full_analysis_calls (L : Lib) (path : string) (y : list Q) (sr : Z)
    (peak : Q) (d : gmap string string) (text : string) :
  outcome (load_audio L path) = Ok (y, sr) ->
  np_max (np_abs y) = Ok peak ->
  1 # 1000 <= peak ->
  transcribe L y = Ok d ->
  d !! "text" = Some text ->
  trace (run_full_analysis L path)
  = [EPrint ("Processing file: " +:+ path +:+ "...");
     EFromFile path; ESetChannels 1; ESetFrameRate 16000; EExport "wav";
     ELibrosaLoad 16000;
     EPrint "Transcribing audio data..."; ETranscribe;
     EPrint ("Transcription: '" +:+ text +:+ "'")]
    ++ trace (analyze_clarity L y sr)
    ++ trace (analyze_confidence L y sr text)
    ++ trace (analyze_energy_engagement L y sr).
Proof.
  intros Hload Hpeak Hloud Hd Htext.
  rewrite (run_after_load L path y sr Hload).
  rewrite (after_load_loud L y sr peak Hpeak Hloud).
  rewrite (load_audio_returns L path y sr Hload).
  rewrite (analyze_speech_trace L y sr d text Hd Htext). reflexivity.
Qed.

Lemma full_analysis_calls_witness :
  trace (run_full_analysis demo_lib "speech.wav")
  = [EPrint ("Processing file: " +:+ "speech.wav" +:+ "...");
     EFromFile "speech.wav"; ESetChannels 1; ESetFrameRate 16000;
     EExport "wav"; ELibrosaLoad 16000;
     EPrint "Transcribing audio data..."; ETranscribe;
     EPrint ("Transcription: '" +:+ " Um so I like you know Rocq" +:+ "'")]
    ++ trace (analyze_clarity demo_lib demo_speech 16000)
    ++ trace (analyze_confidence demo_lib demo_speech 16000
                " Um so I like you know Rocq")
    ++ trace (analyze_energy_engagement demo_lib demo_speech 16000).
Proof.
  apply (full_analysis_calls demo_lib "speech.wav" demo_speech 16000 (1 # 2)
           {[ "text" := " Um so I like you know Rocq"; "language" := "en" ]}
           " Um so I like you know Rocq").
  - reflexivity.
  - reflexivity.
  - discriminate.
  - reflexivity.
  - reflexivity.
Defined.

(** ** Clarity beyond its floor *)

Lemma np_diff_length l : length (np_diff l) = (length l - 1)%nat.
Proof.
  induction l as [|a l IH]; [reflexivity|].
  destruct l as [|b l]; [reflexivity|].
  change (np_diff (a :: b :: l)) with ((b - a) :: np_diff (b :: l)).
  simpl length in *. rewrite IH. lia.
Qed.

Lemma differences_empty l :
  np_abs (np_diff l) = [] <-> (length l < 2)%nat.
Proof.
  pose proof (np_diff_length l) as Hlen. unfold np_abs. split.
  - intros Hnil. apply (f_equal (@length Q)) in Hnil.
    rewrite length_map in Hnil. simpl in Hnil. lia.
  - intros Hshort. apply length_zero_iff_nil. rewrite length_map. lia.
Qed.

(** X4. With at least two voiced frames and every library call
    succeeding, [analyze_clarity] is the mean of the reversed jitter score
    (bounds 0 and 5) and the reversed shimmer score (bounds 0 and 0.1), so
    it is 0 from a jitter of 5 and a shimmer of 0.1 on and 10 when both are
    0.  The length guard keeps the jitter from being a mean over no
    difference at all; the shimmer has no such guard and is a mean over an
    empty array exactly when the RMS envelope has fewer than two frames. *)
Theorem clarity_scores (L : Lib) (y : list Q) (sr : Z)
    (pitches magnitudes envelope : matrix) (pitch_values row : list Q)
    (jitter shimmer : Q) :
  piptrack L y sr = Ok (pitches, magnitudes) ->
  voiced_pitches pitches magnitudes (seq 0 (shape1 pitches))
  = Ok pitch_values ->
  (2 <= length pitch_values)%nat ->
  np_mean L (np_abs (np_diff pitch_values)) = Ok jitter ->
  rms L y = Ok envelope ->
  getitem0 envelope = Ok row ->
  np_mean L (np_abs (np_diff row)) = Ok shimmer ->
  analyze_clarity L y sr
  = ([EPiptrack; ERms],
     Ok ((score_of jitter 0 5 true + score_of shimmer 0 (1 # 10) true) / 2))
  /\ (5 <= jitter -> 1 # 10 <= shimmer ->
      (score_of jitter 0 5 true + score_of shimmer 0 (1 # 10) true) / 2 == 0)
  /\ (jitter <= 0 -> shimmer <= 0 ->
      (score_of jitter 0 5 true + score_of shimmer 0 (1 # 10) true) / 2
      == 10)
  /\ np_abs (np_diff pitch_values) <> []
  /\ (np_abs (np_diff row) = [] <-> (length row < 2)%nat).
Proof.
  intros Htrack Hvoiced Hmany Hjitter Hrms Hrow Hshimmer.
  split; [|split; [|split; [|split]]].
  - unfold analyze_clarity, try_except, analyze_clarity_body, call, lift.
    rewrite Htrack.
    cbn -[normalize_score np_abs np_diff Nat.ltb length voiced_pitches seq].
    rewrite Hvoiced.
    cbn -[normalize_score np_abs np_diff Nat.ltb length voiced_pitches seq].
    assert (Hguard : (length pitch_values <? 2)%nat = false)
      by (apply Nat.ltb_ge; exact Hmany).
    rewrite Hguard, Hjitter.
    cbn -[normalize_score np_abs np_diff Nat.ltb length voiced_pitches seq].
    rewrite Hrms.
    cbn -[normalize_score np_abs np_diff Nat.ltb length voiced_pitches seq].
    rewrite Hrow.
    cbn -[normalize_score np_abs np_diff Nat.ltb length voiced_pitches seq].
    rewrite Hshimmer, !normalize_score_eq by reflexivity. reflexivity.
  - intros Hj Hs.
    rewrite (score_of_high jitter 0 5 true) by (try reflexivity; exact Hj).
    rewrite (score_of_high shimmer 0 (1 # 10) true)
      by (try reflexivity; exact Hs).
    reflexivity.
  - intros Hj Hs.
    rewrite (score_of_low jitter 0 5 true) by (try reflexivity; exact Hj).
    rewrite (score_of_low shimmer 0 (1 # 10) true)
      by (try reflexivity; exact Hs).
    reflexivity.
  - intros Hnil. apply differences_empty in Hnil. lia.
  - apply differences_empty.
Qed.

Lemma clarity_scores_witness :
  trace (analyze_clarity demo_lib demo_speech 16000) = [EPiptrack; ERms].
Proof.
  edestruct (clarity_scores demo_lib demo_speech 16000
               demo_pitches demo_magnitudes) as [Hclarity _].
  - reflexivity.
  - reflexivity.
  - apply le_n.
  - reflexivity.
  - reflexivity.
  - reflexivity.
  - reflexivity.
  - rewrite Hclarity. reflexivity.
Defined.

Lemma load_audio_calls_witness :
  trace (load_audio demo_lib "speech.wav")
  = [EFromFile "speech.wav"; ESetChannels 1; ESetFrameRate 16000;
     EExport "wav"; ELibrosaLoad 16000].
Proof.
  apply (load_audio_calls demo_lib "speech.wav")
    with (loaded := (demo_speech, 16000%Z)).
  reflexivity.
Defined.

(** ** What the confidence score reads of the text *)

Lemma split_lower text : split (lower text) = map lower (split text).
Proof. apply (split_from_lower text ""). Qed.

Lemma confidence_by_words L y sr text text' :
  split (lower text) = split (lower text') ->
  analyze_confidence L y sr text = analyze_confidence L y sr text'.
Proof.
  intros Hsame. unfold analyze_confidence, analyze_confidence_body.
  rewrite Hsame. reflexivity.
Qed.

(** X6. [analyze_confidence] reads the transcript through its lower-cased
    tokens only: two transcripts with the same lower-cased tokens get the
    same score, so the score does not change when the transcript is
    lower-cased, nor when its words are re-joined with single spaces
    (leading, trailing and repeated whitespace is irrelevant). *)
Theorem confidence_text_invariance (L : Lib) (y : list Q) (sr : Z)
    (text : string) :
  (forall text',
     split (lower text) = split (lower text') ->
     analyze_confidence L y sr text = analyze_confidence L y sr text')
  /\ analyze_confidence L y sr (lower text) = analyze_confidence L y sr text
  /\ analyze_confidence L y sr (join_spaces (split text))
     = analyze_confidence L y sr text.
Proof.
  split; [intros text'; apply confidence_by_words|]. split.
  - apply confidence_by_words. rewrite lower_idempotent. reflexivity.
  - apply confidence_by_words.
    rewrite (split_lower (join_spaces (split text))), split_join.
    + symmetry. apply split_lower.
    + pose proof (split_from_nonempty text "") as Hne.
      pose proof (split_no_space text) as Hns. unfold split in *.
      rewrite List.Forall_forall in *. intros word Hin.
      split; [apply Hne | apply Hns]; exact Hin.
Qed.

Lemma confidence_text_invariance_witness :
  analyze_confidence demo_lib demo_speech 16000 "UM  so"
  = analyze_confidence demo_lib demo_speech 16000 " um so ".
Proof.
  destruct (confidence_text_invariance demo_lib demo_speech 16000 "UM  so")
    as [Hsame _].
  apply Hsame. reflexivity.
Defined.
